(** * python_janus_client: the Admin/Monitor client

    A shallow embedding of [janus_client/admin_monitor.py]: the
    [JanusAdminMonitorClient] class, its [send_wrapper] request helper and
    the thin request builders on top of it.  The transport, the message
    transaction and [is_subset] belong to other modules of the package
    ([transport.py], [message_transaction.py]); here they are modelled
    from the specification of the package and marked as such. *)

From Stdlib Require Import ZArith NArith Lia Bool.
From stdpp Require Import gmap strings list.

Open Scope string_scope.
Set Warnings "-register-all".

(** ** Messages

    A message is a JSON document as Python's [json] module decodes it:
    [None], booleans, numbers, strings, lists and dicts.  The numbers of
    the admin protocol are integers.  A dict keeps its keys in insertion
    order, so it is an association list; the operations below keep keys
    unique the way Python's dict does. *)

Inductive value : Type :=
| VNone
| VBool (b : bool)
| VInt (z : Z)
| VStr (s : string)
| VList (l : list value)
| VDict (d : list (string * value)).

Abbreviation dict := (list (string * value)).

(** [d.get(k)] *)
Fixpoint dict_get (k : string) (d : dict) : option value :=
  match d with
  | [] => None
  | (k', v) :: rest => if String.eqb k k' then Some v else dict_get k rest
  end.

(** [k in d] *)
Definition dict_has (k : string) (d : dict) : bool :=
  match dict_get k d with Some _ => true | None => false end.

(** [d[k] = v]: an existing key keeps its position, a new one goes last. *)
Fixpoint dict_set (k : string) (v : value) (d : dict) : dict :=
  match d with
  | [] => [(k, v)]
  | (k', v') :: rest =>
      if String.eqb k k' then (k, v) :: rest else (k', v') :: dict_set k v rest
  end.

(** [bool(d)]: a dict is truthy exactly when it is not empty. *)
Definition dict_truthy (d : dict) : bool :=
  match d with [] => false | _ :: _ => true end.

(** [bool(l)] for a list. *)
Definition list_truthy (l : list value) : bool :=
  match l with [] => false | _ :: _ => true end.

(** ** The structural subset test *)

Module Matcher.

(** Strict equality of two scalars: same type and same value. *)
Definition scalar_eqb (p c : value) : bool :=
  match p, c with
  | VBool a, VBool b => Bool.eqb a b
  | VInt a, VInt b => Z.eqb a b
  | VStr a, VStr b => String.eqb a b
  | _, _ => false
  end.

(** Modelled from the spec: [is_subset], which the client imports from
    [message_transaction.py].  Section 4.1: every
    key of the pattern must exist in the candidate; a pattern value
    [None] only asks for the key; a nested document recurses and the
    candidate's value must be a document too; a nested sequence asks for
    a candidate sequence at least as long and is compared position by
    position over the pattern's positions; anything else is compared by
    strict equality.  [value_matches p c] is the test of one pattern
    value [p] against the candidate's value [c]. *)
Fixpoint value_matches (p c : value) {struct p} : bool :=
  match p with
  | VNone => true
  | VDict pd =>
      match c with
      | VDict cd =>
          (fix keys (pd : dict) : bool :=
             match pd with
             | [] => true
             | (k, pv) :: rest =>
                 match dict_get k cd with
                 | Some cv => value_matches pv cv && keys rest
                 | None => false
                 end
             end) pd
      | _ => false
      end
  | VList pl =>
      match c with
      | VList cl =>
          (fix items (pl cl : list value) : bool :=
             match pl, cl with
             | [], _ => true
             | _ :: _, [] => false
             | pv :: pr, cv :: cr => value_matches pv cv && items pr cr
             end) pl cl
      | _ => false
      end
  | _ => scalar_eqb p c
  end.

(** Modelled from the spec: [is_subset(candidate, pattern)], the
    contract [matches(candidate, pattern)] of section 4.1 on two
    documents. *)
Definition is_subset (candidate pattern : dict) : bool :=
  value_matches (VDict pattern) (VDict candidate).

(** The test of one key of the pattern. *)
Definition key_matches (candidate : dict) (kv : string * value) : bool :=
  match dict_get (fst kv) candidate with
  | Some cv => value_matches (snd kv) cv
  | None => false
  end.

End Matcher.
Export Matcher.

(** ** Outcomes of a call *)

(** The exceptions a call of this module can end in. *)
Inductive exn : Type :=
| Timeout
| TransportClosed
| CancelledError
| AttributeError (name : string)
| KeyError (key : string)
| TypeError
| RecursionError.

(** A call returns a value, raises, or stays suspended for ever. *)
Inductive outcome (A : Type) : Type :=
| Returns (a : A)
| Raises (e : exn)
| Suspended.
Arguments Returns {A} a.
Arguments Raises {A} e.
Arguments Suspended {A}.

(** ** The transport and its message transactions *)

Module Transport.

(** Modelled from the spec: the transaction of section 3, reduced to
    its buffer of matched messages not yet consumed.  A closed
    transaction is one the registry no longer maps. *)
Record Transaction : Type := { buffer : list dict }.

(** What the connection brings: a decoded message, or its end. *)
Inductive event : Type :=
| Deliver (m : dict)
| Disconnect.

(** The operations the client invokes on the transport, as a log. *)
Inductive call : Type :=
| CallSend (message : dict)
| CallGet (id : string) (timeout : option N)
| CallDone (id : string).

(** Modelled from the spec: the state of a transport (section 3): the
    link, the registry of open transactions, what was physically
    written, what went to the fallback handler, and what the peer is
    going to deliver, each event with the delay (in seconds) after the
    event before it. *)
Record state : Type := State {
  connected : bool;
  registry : gmap string Transaction;
  wire : list dict;
  fallback : list dict;
  inbound : list (N * event);
  calls : list call
}.

Definition set_connected (b : bool) (st : state) : state :=
  State b (registry st) (wire st) (fallback st) (inbound st) (calls st).
Definition set_registry (r : gmap string Transaction) (st : state) : state :=
  State (connected st) r (wire st) (fallback st) (inbound st) (calls st).
Definition set_wire (l : list dict) (st : state) : state :=
  State (connected st) (registry st) l (fallback st) (inbound st) (calls st).
Definition set_fallback (l : list dict) (st : state) : state :=
  State (connected st) (registry st) (wire st) l (inbound st) (calls st).
Definition set_inbound (l : list (N * event)) (st : state) : state :=
  State (connected st) (registry st) (wire st) (fallback st) l (calls st).
Definition log (c : call) (st : state) : state :=
  State (connected st) (registry st) (wire st) (fallback st) (inbound st)
        (calls st ++ [c]).

(** The transaction id field of a message. *)
Definition transaction_id (m : dict) : option string :=
  match dict_get "transaction" m with
  | Some (VStr t) => Some t
  | _ => None
  end.

Definition buffer_of (h : string) (st : state) : list dict :=
  match registry st !! h with
  | Some tx => buffer tx
  | None => []
  end.

Definition set_buffer (h : string) (b : list dict) (st : state) : state :=
  set_registry (alter (fun _ => {| buffer := b |}) h (registry st)) st.

(** Modelled from the spec: [offer] (section 4.2).  Correlation at
    offer time is by transaction id, so an open transaction buffers the
    message it is offered. *)
Definition offer (m : dict) (tx : Transaction) : Transaction :=
  {| buffer := buffer tx ++ [m] |}.

(** Modelled from the spec: the dispatch of one inbound message
    (section 4.3): to the open transaction of its id, else to the
    fallback handler. *)
Definition dispatch (m : dict) (st : state) : state :=
  match transaction_id m with
  | Some t =>
      match registry st !! t with
      | Some tx => set_registry (<[t := offer m tx]> (registry st)) st
      | None => set_fallback (fallback st ++ [m]) st
      end
  | None => set_fallback (fallback st ++ [m]) st
  end.

Definition deliver (ev : event) (st : state) : state :=
  match ev with
  | Deliver m => dispatch m st
  | Disconnect => set_connected false st
  end.

(** The oldest message of a buffer that the matcher accepts, and the
    buffer without it. *)
Fixpoint take_oldest (matcher : dict → bool) (b : list dict)
  : option (dict * list dict) :=
  match b with
  | [] => None
  | m :: rest =>
      if matcher m then Some (m, rest)
      else match take_oldest matcher rest with
           | Some (x, rest') => Some (x, m :: rest')
           | None => None
           end
  end.

(** Modelled from the spec: the wait of [get] (sections 4.2 and 5).
    The caller is resumed with the oldest buffered message the matcher
    accepts; until there is one the pump delivers the next event, as
    long as it comes within what is left of the timeout.  A lost
    connection resolves the wait with [TransportClosed]; with no timeout
    and nothing more to come the caller stays suspended. *)
Fixpoint wait (h : string) (matcher : dict → bool) (budget : option N)
    (evs : list (N * event)) (st : state) : outcome dict * state :=
  if negb (connected st) then (Raises TransportClosed, set_inbound evs st)
  else
    match take_oldest matcher (buffer_of h st) with
    | Some (m, rest) => (Returns m, set_inbound evs (set_buffer h rest st))
    | None =>
        match evs with
        | [] =>
            match budget with
            | Some _ => (Raises Timeout, set_inbound [] st)
            | None => (Suspended, set_inbound [] st)
            end
        | (dt, ev) :: evs' =>
            match budget with
            | Some b =>
                if (b <? dt)%N
                then (Raises Timeout, set_inbound ((dt - b, ev)%N :: evs') st)
                else wait h matcher (Some (b - dt)%N) evs' (deliver ev st)
            | None => wait h matcher None evs' (deliver ev st)
            end
        end
    end.

(** Modelled from the spec: [MessageTransaction.get(matcher, timeout)]. *)
Definition get (h : string) (matcher : dict → bool) (timeout : option N)
    (st : state) : outcome dict * state :=
  let st := log (CallGet h timeout) st in
  wait h matcher timeout (inbound st) st.

(** Modelled from the spec: [MessageTransaction.done()]: the
    transaction leaves the registry and its buffer is dropped; a second
    call finds nothing to remove. *)
Definition done (h : string) (st : state) : outcome unit * state :=
  (Returns tt, set_registry (delete h (registry st)) (log (CallDone h) st)).

(** Modelled from the spec: [JanusTransport.send(message)] (section
    4.4), in its two parts.  The first part, only while connected: the
    id already in the message is kept, else a fresh one is assigned; the
    transaction of that id is created unless it is open already.  This
    comes before the physical write. *)
Definition register (message : dict) (st : state) : outcome string * state :=
  let st := log (CallSend message) st in
  if negb (connected st) then (Raises TransportClosed, st)
  else
    let id := match transaction_id message with
              | Some t => t
              | None => fresh (dom (registry st))
              end in
    let reg := match registry st !! id with
               | Some _ => registry st
               | None => <[id := {| buffer := [] |}]> (registry st)
               end in
    (Returns id, set_registry reg st).

(** The second part: the physical write of the message, which by then
    carries its id. *)
Definition write (message : dict) (st : state) : outcome unit * state :=
  (Returns tt, set_wire (wire st ++ [message]) st).

(** Modelled from the spec: [connect()] and [disconnect()]. *)
Definition connect (st : state) : outcome unit * state :=
  (Returns tt, set_connected true st).
Definition disconnect (st : state) : outcome unit * state :=
  (Returns tt, set_connected false st).

(** A transport that was just created: not connected, nothing open. *)
Definition create_transport : state := State false ∅ [] [] [] [].

End Transport.

(** ** The state of the process and the monad of its calls *)

(** Dict objects are held by reference: [heap] maps the identity of each
    live dict to its content, so that two names for one object see each
    other's updates.  [cancel_at = Some n] says that the running task is
    cancelled at the [n+1]-th point from now where it is suspended.
    [uuid_stream] and [uuid_drawn] are the random source behind
    [uuid.uuid4()]. *)
Record world : Type := World {
  heap : gmap nat dict;
  transport : Transport.state;
  cancel_at : option nat;
  uuid_stream : nat → string;
  uuid_drawn : nat
}.

Definition set_heap (h : gmap nat dict) (w : world) : world :=
  World h (transport w) (cancel_at w) (uuid_stream w) (uuid_drawn w).
Definition set_transport (t : Transport.state) (w : world) : world :=
  World (heap w) t (cancel_at w) (uuid_stream w) (uuid_drawn w).
Definition set_cancel_at (c : option nat) (w : world) : world :=
  World (heap w) (transport w) c (uuid_stream w) (uuid_drawn w).
Definition set_uuid_drawn (n : nat) (w : world) : world :=
  World (heap w) (transport w) (cancel_at w) (uuid_stream w) n.

Definition M (A : Type) : Type := world → outcome A * world.

Definition ret {A} (a : A) : M A := fun w => (Returns a, w).

Definition raise {A} (e : exn) : M A := fun w => (Raises e, w).

Definition bind {A B} (c : M A) (k : A → M B) : M B :=
  fun w =>
    match c w with
    | (Returns a, w') => k a w'
    | (Raises e, w') => (Raises e, w')
    | (Suspended, w') => (Suspended, w')
    end.

Notation "'let!' x ':=' c 'in' k" := (bind c (fun x => k))
  (at level 10, x name, c at level 200, k at level 200, only parsing).

(** A dict display [{...}] makes a new object. *)
Definition alloc (d : dict) : M nat :=
  fun w =>
    let l := fresh (dom (heap w)) in
    (Returns l, set_heap (<[l := d]> (heap w)) w).

(** Reading the content of an object. *)
Definition load (l : nat) : M dict :=
  fun w => (Returns (default [] (heap w !! l)), w).

(** [obj[k] = v] on the object itself. *)
Definition setitem (l : nat) (k : string) (v : value) : M unit :=
  fun w => (Returns tt, set_heap (alter (dict_set k v) l (heap w)) w).

(** [uuid.uuid4().hex] *)
Definition uuid4_hex : M string :=
  fun w => (Returns (uuid_stream w (uuid_drawn w)),
            set_uuid_drawn (S (uuid_drawn w)) w).

(** An operation of the transport, run on the transport of the process. *)
Definition on_transport {A} (op : Transport.state → outcome A * Transport.state)
  : M A :=
  fun w => let (r, t) := op (transport w) in (r, set_transport t w).

(** A point where a coroutine suspends the task.  A cancellation that
    is due at this point is thrown into the task as [CancelledError]. *)
Definition suspension : M unit :=
  fun w =>
    match cancel_at w with
    | Some O => (Raises CancelledError, set_cancel_at None w)
    | Some (S n) => (Returns tt, set_cancel_at (Some n) w)
    | None => (Returns tt, w)
    end.

(** [await c]: the coroutine [c] runs in the calling task, which can be
    cancelled where [c] suspends. *)
Definition await {A} (c : M A) : M A := c.

(** A coroutine of the transport that suspends the task once: [called]
    is what the call has done when the task is suspended, [op] the whole
    operation when the task is resumed. *)
Definition suspending {A} (called : Transport.state → Transport.state)
    (op : Transport.state → outcome A * Transport.state) : M A :=
  fun w =>
    match cancel_at w with
    | Some O =>
        (Raises CancelledError,
         set_cancel_at None (set_transport (called (transport w)) w))
    | Some (S n) => on_transport op (set_cancel_at (Some n) w)
    | None => on_transport op w
    end.

(** Modelled from the spec: [self.__transport.send(message)] on the dict
    object [message] (section 4.4).  The transport works on the object it
    is handed: the id of the transaction is assigned into that object,
    the transaction is registered, and then the object is written; the
    write is where the task is suspended. *)
Definition transport_send (message : nat) : M string :=
  let! m := load message in
  let! id := on_transport (Transport.register m) in
  let! _ := setitem message "transaction" (VStr id) in
  let! _ := suspension in
  let! outbound := load message in
  let! _ := on_transport (Transport.write outbound) in
  ret id.

(** Modelled from the spec: [message_transaction.get(matcher, timeout)];
    the task is suspended in the wait, after the call. *)
Definition transport_get (h : string) (matcher : dict → bool)
    (timeout : option N) : M dict :=
  suspending (Transport.log (Transport.CallGet h timeout))
    (Transport.get h matcher timeout).

(** Modelled from the spec: [message_transaction.done()]; the task may
    be suspended for the registry, after the call. *)
Definition transport_done (h : string) : M unit :=
  suspending (Transport.log (Transport.CallDone h)) (Transport.done h).

(** ** The client *)

(** Modelled from the spec: the transport object that the client holds,
    with what [JanusTransport.create_transport] is given.  Its mutable
    state is the [transport] of the world. *)
Record JanusTransport : Type := {
  base_url : string;
  api_secret : option string;
  token : option string;
  config : dict
}.

Definition create_transport (base_url : string) (api_secret token : option string)
    (config : dict) : JanusTransport :=
  {| base_url := base_url; api_secret := api_secret; token := token;
     config := config |}.

Record JanusAdminMonitorClient : Type := {
  __transport : JanusTransport;
  __admin_secret : string
}.

(** [__init__(base_url, admin_secret, api_secret=None, token=None)] *)
Definition __init__ (base_url admin_secret : string)
    (api_secret token : option string) : JanusAdminMonitorClient :=
  {| __transport :=
       create_transport base_url api_secret token
         [("subprotocol", VStr "janus-admin-protocol")];
     __admin_secret := admin_secret |}.

(** [__str__]: the f-string formats [self.__transport.base_url] and then
    [self], and formatting [self] is [str(self)] again.  [depth] is the
    number of frames the interpreter still allows (its recursion limit);
    a call with none left raises [RecursionError]. *)
Fixpoint __str__ (depth : nat) (self : JanusAdminMonitorClient)
  : outcome string :=
  match depth with
  | O => Raises RecursionError
  | S depth' =>
      match __str__ depth' self with
      | Returns s =>
          Returns ("Admin/Monitor (" ++ base_url (__transport self) ++ ") " ++ s)
      | Raises e => Raises e
      | Suspended => Suspended
      end
  end.

Definition connect (self : JanusAdminMonitorClient) : M unit :=
  await (suspending (fun st => st) Transport.connect).

Definition disconnect (self : JanusAdminMonitorClient) : M unit :=
  await (suspending (fun st => st) Transport.disconnect).

(** The error shape every request may be answered with. *)
Definition error_pattern : dict :=
  [("janus", VStr "error");
   ("error", VDict [("code", VNone); ("reason", VNone)])].

(** The inner function of [send_wrapper], closed over [matcher]. *)
Definition function_matcher (matcher : dict) (message : dict) : bool :=
  is_subset message matcher || is_subset message error_pattern.

(** The defaults of [send_wrapper]'s parameters. *)
Definition default_matcher : dict := [].
Definition default_jsep : dict := [].
Definition default_timeout : option N := Some 15%N.
Definition default_authorize : bool := true.

(** [send_wrapper(message, matcher, jsep, timeout, authorize)].
    [message] is the caller's dict object; [full_message] is first another
    name for it, and a new dict only when [jsep] is not empty.  The
    transport is handed the object [full_message] itself. *)
Definition send_wrapper (self : JanusAdminMonitorClient) (message : nat)
    (matcher jsep : dict) (timeout : option N) (authorize : bool) : M dict :=
  let! full_message :=
    (if dict_truthy jsep
     then (let! m := load message in alloc (dict_set "jsep" (VDict jsep) m))
     else ret message) in
  let! _ := (if authorize
        then setitem full_message "admin_secret" (VStr (__admin_secret self))
        else ret tt) in
  let! message_transaction := await (transport_send full_message) in
  let! response :=
    await (transport_get message_transaction (function_matcher matcher)
             timeout) in
  let! _ := await (transport_done message_transaction) in
  ret response.

(** [ping()] *)
Definition ping (self : JanusAdminMonitorClient) : M dict :=
  let! message := alloc [("janus", VStr "ping")] in
  send_wrapper self message [("janus", VStr "pong")] default_jsep
    default_timeout false.

(** ** Attribute lookup on a client *)

(** The attributes [__init__] stores on the instance, under their mangled
    names. *)
Definition instance_namespace : list string :=
  ["_JanusAdminMonitorClient__transport";
   "_JanusAdminMonitorClient__admin_secret"].

(** The names the class body binds, in source order. *)
Definition class_namespace : list string :=
  ["__annotations__"; "__init__"; "__str__"; "connect"; "disconnect";
   "send_wrapper"; "ping"; "info"; "loops_info"; "get_settings";
   "set_session_timeout"; "set_log_level"; "set_log_timestamps";
   "set_log_colors"; "set_locking_debug"; "set_refcount_debug";
   "set_libnice_debug"; "set_min_nack_queue"; "set_no_media_timer";
   "add_token"; "allow_token"; "disallow_token"; "list_tokens";
   "remove_token"].

(** What every object inherits from [object] and from its class object. *)
Definition object_namespace : list string :=
  ["__class__"; "__delattr__"; "__dict__"; "__dir__"; "__doc__"; "__eq__";
   "__format__"; "__ge__"; "__getattribute__"; "__getstate__"; "__gt__";
   "__hash__"; "__init_subclass__"; "__le__"; "__lt__"; "__module__";
   "__ne__"; "__new__"; "__reduce__"; "__reduce_ex__"; "__repr__";
   "__setattr__"; "__sizeof__"; "__subclasshook__"; "__weakref__"].

(** [hasattr(self, name)]: the class defines no [__getattr__], so a name
    is found only in one of the three namespaces. *)
Definition hasattr (name : string) : bool :=
  existsb (String.eqb name)
    (instance_namespace ++ class_namespace ++ object_namespace).

(** [v[k]] on a decoded document. *)
Definition getitem (v : value) (k : string) : M value :=
  match v with
  | VDict d =>
      match dict_get k d with
      | Some x => ret x
      | None => raise (KeyError k)
      end
  | _ => raise TypeError
  end.

(** ** The token requests *)

(** The default values of [add_token]'s parameters are part of the
    function object. *)
Record add_token_defaults : Type := {
  default_token : string;
  default_plugins : list value
}.

(** Executing [async def add_token(self, token=uuid.uuid4().hex,
    plugins=[])]: the default expressions are evaluated here, when the
    function object is made. *)
Definition def_add_token : M add_token_defaults :=
  let! hex := uuid4_hex in
  ret {| default_token := hex; default_plugins := [] |}.

Section Tokens.

(** What an attribute called [send] would do if the object had one. *)
Variable send : JanusAdminMonitorClient → nat → M dict.

(** [await self.send(payload)]: the attribute is looked up first. *)
Definition self_send (self : JanusAdminMonitorClient) (payload : nat)
  : M dict :=
  if hasattr "send" then await (send self payload)
  else raise (AttributeError "send").

(** [add_token(token, plugins)]; [None] stands for an omitted argument. *)
Definition add_token (defaults : add_token_defaults)
    (self : JanusAdminMonitorClient) (token : option string)
    (plugins : option (list value)) : M dict :=
  let token := default (default_token defaults) token in
  let plugins := default (default_plugins defaults) plugins in
  let! payload := alloc [("janus", VStr "add_token"); ("token", VStr token)] in
  let! _ := (if list_truthy plugins
             then setitem payload "plugins" (VList plugins)
             else ret tt) in
  self_send self payload.

Definition allow_token (self : JanusAdminMonitorClient) (token : string)
    (plugins : list value) : M dict :=
  let! payload := alloc [("janus", VStr "allow_token");
                         ("token", VStr token);
                         ("plugins", VList plugins)] in
  self_send self payload.

Definition disallow_token (self : JanusAdminMonitorClient) (token : string)
    (plugins : list value) : M dict :=
  let! payload := alloc [("janus", VStr "disallow_token");
                         ("token", VStr token);
                         ("plugins", VList plugins)] in
  self_send self payload.

Definition list_tokens (self : JanusAdminMonitorClient) : M value :=
  let! payload := alloc [("janus", VStr "list_tokens")] in
  let! result := self_send self payload in
  let! data := getitem (VDict result) "data" in
  getitem data "tokens".

Definition remove_token (self : JanusAdminMonitorClient) (token : string)
  : M dict :=
  let! payload := alloc [("janus", VStr "remove_token");
                         ("token", VStr token)] in
  self_send self payload.

End Tokens.


(** ** The requests built on [send_wrapper] *)

Section Info.

(** [isinstance(self.__transport, JanusTransportHTTP)] and the [info()]
    of that transport: the HTTP transport is another module of the
    package, and [info] only hands over to it. *)
Variable is_http : JanusTransport → bool.
Variable transport_info : JanusTransport → M dict.

(** [info()] *)
Definition info (self : JanusAdminMonitorClient) : M dict :=
  if is_http (__transport self)
  then await (transport_info (__transport self))
  else
    let! message := alloc [("janus", VStr "info")] in
    send_wrapper self message [("janus", VStr "server_info")] default_jsep
      default_timeout false.

End Info.

(** [loops_info()] *)
Definition loops_info (self : JanusAdminMonitorClient) : M value :=
  let! message := alloc [("janus", VStr "loops_info")] in
  let! response :=
    send_wrapper self message [("janus", VStr "success")] default_jsep
      default_timeout default_authorize in
  getitem (VDict response) "loops".

(** [get_settings()] *)
Definition get_settings (self : JanusAdminMonitorClient) : M value :=
  let! message := alloc [("janus", VStr "get_status")] in
  let! response :=
    send_wrapper self message [("janus", VStr "success"); ("status", VDict [])]
      default_jsep default_timeout default_authorize in
  getitem (VDict response) "status".

(** [set_session_timeout(session_timeout)] *)
Definition set_session_timeout (self : JanusAdminMonitorClient)
    (session_timeout : Z) : M value :=
  let! message := alloc [("janus", VStr "set_session_timeout");
                         ("timeout", VInt session_timeout)] in
  let! response :=
    send_wrapper self message [("janus", VStr "success"); ("timeout", VNone)]
      default_jsep default_timeout default_authorize in
  getitem (VDict response) "timeout".

(** [set_log_level(log_level)] *)
Definition set_log_level (self : JanusAdminMonitorClient) (log_level : Z)
  : M value :=
  let! message := alloc [("janus", VStr "set_log_level");
                         ("level", VInt log_level)] in
  let! response :=
    send_wrapper self message [("janus", VStr "success"); ("level", VNone)]
      default_jsep default_timeout default_authorize in
  getitem (VDict response) "level".

(** [set_log_timestamps(log_timestamps)] *)
Definition set_log_timestamps (self : JanusAdminMonitorClient)
    (log_timestamps : bool) : M value :=
  let! message := alloc [("janus", VStr "set_log_timestamps");
                         ("timestamps", VBool log_timestamps)] in
  let! response :=
    send_wrapper self message
      [("janus", VStr "success"); ("log_timestamps", VNone)]
      default_jsep default_timeout default_authorize in
  getitem (VDict response) "log_timestamps".

(** [set_log_colors(log_colors)] *)
Definition set_log_colors (self : JanusAdminMonitorClient) (log_colors : bool)
  : M value :=
  let! message := alloc [("janus", VStr "set_log_colors");
                         ("colors", VBool log_colors)] in
  let! response :=
    send_wrapper self message
      [("janus", VStr "success"); ("log_colors", VNone)]
      default_jsep default_timeout default_authorize in
  getitem (VDict response) "log_colors".

(** [set_locking_debug(locking_debug)] *)
Definition set_locking_debug (self : JanusAdminMonitorClient)
    (locking_debug : bool) : M value :=
  let! message := alloc [("janus", VStr "set_locking_debug");
                         ("debug", VBool locking_debug)] in
  let! response :=
    send_wrapper self message
      [("janus", VStr "success"); ("locking_debug", VNone)]
      default_jsep default_timeout default_authorize in
  getitem (VDict response) "locking_debug".

(** [set_refcount_debug(refcount_debug)] *)
Definition set_refcount_debug (self : JanusAdminMonitorClient)
    (refcount_debug : bool) : M value :=
  let! message := alloc [("janus", VStr "set_refcount_debug");
                         ("debug", VBool refcount_debug)] in
  let! response :=
    send_wrapper self message
      [("janus", VStr "success"); ("refcount_debug", VNone)]
      default_jsep default_timeout default_authorize in
  getitem (VDict response) "refcount_debug".

(** [set_libnice_debug(libnice_debug)] *)
Definition set_libnice_debug (self : JanusAdminMonitorClient)
    (libnice_debug : bool) : M value :=
  let! message := alloc [("janus", VStr "set_libnice_debug");
                         ("debug", VBool libnice_debug)] in
  let! response :=
    send_wrapper self message
      [("janus", VStr "success"); ("libnice_debug", VNone)]
      default_jsep default_timeout default_authorize in
  getitem (VDict response) "libnice_debug".

(** [set_min_nack_queue(min_nack_queue)] *)
Definition set_min_nack_queue (self : JanusAdminMonitorClient)
    (min_nack_queue : Z) : M value :=
  let! message := alloc [("janus", VStr "set_min_nack_queue");
                         ("min_nack_queue", VInt min_nack_queue)] in
  let! response :=
    send_wrapper self message
      [("janus", VStr "success"); ("min_nack_queue", VNone)]
      default_jsep default_timeout default_authorize in
  getitem (VDict response) "min_nack_queue".

(** [set_no_media_timer(no_media_timer)] *)
Definition set_no_media_timer (self : JanusAdminMonitorClient)
    (no_media_timer : Z) : M value :=
  let! message := alloc [("janus", VStr "set_no_media_timer");
                         ("no_media_timer", VInt no_media_timer)] in
  let! response :=
    send_wrapper self message
      [("janus", VStr "success"); ("no_media_timer", VNone)]
      default_jsep default_timeout default_authorize in
  getitem (VDict response) "no_media_timer".

(** ** Vocabulary of the statements *)

(** The dict a call made first: the object at the first identity that was
    free in the heap the call started from. *)
Definition first_allocated (w w' : world) : option dict :=
  heap w' !! fresh (dom (heap w)).

(** The events that arrive within a timeout, oldest first. *)
Fixpoint arrivals (budget : option N) (evs : list (N * Transport.event))
  : list Transport.event :=
  match evs with
  | [] => []
  | (dt, ev) :: rest =>
      match budget with
      | None => ev :: arrivals None rest
      | Some b =>
          if (b <? dt)%N then [] else ev :: arrivals (Some (b - dt)%N) rest
      end
  end.

(** No message of the transaction [h] that the matcher accepts is in its
    buffer or among the events. *)
Definition nothing_qualifies (h : string) (matcher : dict → bool)
    (buffered : list dict) (evs : list Transport.event) : Prop :=
  (∀ m, m ∈ buffered → matcher m = false) ∧
  (∀ m, Transport.Deliver m ∈ evs →
        Transport.transaction_id m = Some h → matcher m = false).

(** A computation that writes to no dict object but [l]. *)
Definition touches_only (l : nat) {A} (c : M A) : Prop :=
  ∀ w l', l' ≠ l → heap (snd (c w)) !! l' = heap w !! l'.

(** What [send] does to the transport when the task is not cancelled at
    the write: the registration, then the write of the message with its
    id. *)
Definition sent (m : dict) (st : Transport.state)
  : outcome string * Transport.state :=
  match Transport.register m st with
  | (Returns id, st1) =>
      (Returns id,
       snd (Transport.write (dict_set "transaction" (VStr id) m) st1))
  | (Raises e, st1) => (Raises e, st1)
  | (Suspended, st1) => (Suspended, st1)
  end.

(** A computation whose calls on the transport all satisfy [P]. *)
Definition calls_only (P : Transport.call → Prop) {A} (c : M A) : Prop :=
  ∀ w, ∃ l, Transport.calls (transport (snd (c w)))
            = (Transport.calls (transport w) ++ l)%list ∧ Forall P l.

(** What [send_wrapper] hands to the transport for a message of content
    [m]: [m] with [jsep] when there is one, and with the secret when the
    request is to be authorized. *)
Definition full_message_content (self : JanusAdminMonitorClient) (m jsep : dict)
    (authorize : bool) : dict :=
  let m1 := if dict_truthy jsep then dict_set "jsep" (VDict jsep) m else m in
  if authorize then dict_set "admin_secret" (VStr (__admin_secret self)) m1
  else m1.

(** The object that [send_wrapper] hands to the transport: a new one when
    there is a [jsep], else the caller's. *)
Definition full_message_ref (message : nat) (jsep : dict) (w : world) : nat :=
  if dict_truthy jsep then fresh (dom (heap w)) else message.

(** The dict objects when [send_wrapper] calls [send]. *)
Definition prepared_heap (self : JanusAdminMonitorClient) (message : nat)
    (jsep : dict) (authorize : bool) (w : world) : gmap nat dict :=
  let h1 :=
    if dict_truthy jsep
    then <[fresh (dom (heap w)) :=
             dict_set "jsep" (VDict jsep) (default [] (heap w !! message))]>
           (heap w)
    else heap w in
  if authorize
  then alter (dict_set "admin_secret" (VStr (__admin_secret self)))
         (full_message_ref message jsep w) h1
  else h1.

(** The dict objects after a [send] that assigned [id]. *)
Definition sent_heap (self : JanusAdminMonitorClient) (message : nat)
    (jsep : dict) (authorize : bool) (w : world) (id : string)
  : gmap nat dict :=
  alter (dict_set "transaction" (VStr id)) (full_message_ref message jsep w)
    (prepared_heap self message jsep authorize w).

(** A [get] with that timeout, or another call. *)
Definition get_with (timeout : option N) (c : Transport.call) : Prop :=
  ∀ id t, c = Transport.CallGet id t → t = timeout.

(** The time a list of events takes to arrive. *)
Definition total_delay (evs : list (N * Transport.event)) : N :=
  foldr (fun ev acc => (fst ev + acc)%N) 0%N evs.

(** ** Example states *)

Definition example_client : JanusAdminMonitorClient :=
  __init__ "ws://localhost:7188" "janusoverlord" None None.

(** A connected transport with nothing open and a peer that stays
    silent. *)
Definition silent_transport : Transport.state :=
  Transport.set_connected true Transport.create_transport.

(** A process that holds one dict, [{"janus": "loops_info"}], as object 0. *)
Definition example_world : world :=
  World {[ 0 := [("janus", VStr "loops_info")] ]} silent_transport None
        (fun _ => "9f1c0de5a4b34c0e8a6d3b1f2e7a5c90") 0.

(** The same process with a peer that answers the first request, after
    one second for an event of its own and two more for the answer. *)
Definition answering_world (answer : dict) : world :=
  set_transport
    (Transport.set_inbound
       [(1%N, Transport.Deliver [("janus", VStr "event")]);
        (2%N, Transport.Deliver answer)]
       silent_transport)
    example_world.

(** Answers to the first request of [example_world], under the id of the
    first transaction. *)
Definition example_pong : dict :=
  [("janus", VStr "pong"); ("transaction", VStr "0")].

(** A connected transport with the transaction "0" open and an answer
    for it that comes after twenty seconds. *)
Definition late_transport : Transport.state :=
  Transport.set_inbound
    [(20%N, Transport.Deliver [("janus", VStr "success");
                               ("transaction", VStr "0")])]
    (Transport.set_registry {[ "0" := {| Transport.buffer := [] |} ]}
       silent_transport).

Definition example_success : dict :=
  [("janus", VStr "success"); ("transaction", VStr "0");
   ("loops", VList [])].

(** ** Vocabulary for the requests *)

(** The id that the next [send] of a message without one assigns. *)
Definition next_id (w : world) : string :=
  fresh (dom (Transport.registry (transport w))).

(** The peer answers the next request with [r]: the task is not
    cancelled, the transport is connected, and [r] comes in under the id
    of the next transaction within the timeout, accepted by the get-time
    matcher for [pattern], after events that bring nothing the matcher
    accepts for that transaction. *)
Definition answers (w : world) (pattern : dict) (timeout : option N)
    (r : dict) : Prop :=
  Transport.connected (transport w) = true ∧
  cancel_at w = None ∧
  ∃ (quiet later : list (N * Transport.event)) (dt : N),
    (Transport.inbound (transport w)
     = (quiet ++ (dt, Transport.Deliver r) :: later)%list) ∧
    (Transport.Disconnect ∉ map snd quiet) ∧
    (∀ x, Transport.Deliver x ∈ map snd quiet →
          Transport.transaction_id x = Some (next_id w) →
          function_matcher pattern x = false) ∧
    (∀ b, timeout = Some b → (total_delay quiet + dt ≤ b)%N) ∧
    Transport.transaction_id r = Some (next_id w) ∧
    function_matcher pattern r = true.

(** The nine requests that change a setting and return the value the
    server reports. *)
Inductive setter : Type :=
| SessionTimeout | LogLevel | LogTimestamps | LogColors | LockingDebug
| RefcountDebug | LibniceDebug | MinNackQueue | NoMediaTimer.

(** The call of a setter, with [z] for an [int] parameter and [b] for a
    [bool] one. *)
Definition call_setter (s : setter) (self : JanusAdminMonitorClient) (z : Z)
    (b : bool) : M value :=
  match s with
  | SessionTimeout => set_session_timeout self z
  | LogLevel => set_log_level self z
  | LogTimestamps => set_log_timestamps self b
  | LogColors => set_log_colors self b
  | LockingDebug => set_locking_debug self b
  | RefcountDebug => set_refcount_debug self b
  | LibniceDebug => set_libnice_debug self b
  | MinNackQueue => set_min_nack_queue self z
  | NoMediaTimer => set_no_media_timer self z
  end.

(** The message each setter builds. *)
Definition setter_request (s : setter) (z : Z) (b : bool) : dict :=
  match s with
  | SessionTimeout =>
      [("janus", VStr "set_session_timeout"); ("timeout", VInt z)]
  | LogLevel => [("janus", VStr "set_log_level"); ("level", VInt z)]
  | LogTimestamps =>
      [("janus", VStr "set_log_timestamps"); ("timestamps", VBool b)]
  | LogColors => [("janus", VStr "set_log_colors"); ("colors", VBool b)]
  | LockingDebug => [("janus", VStr "set_locking_debug"); ("debug", VBool b)]
  | RefcountDebug => [("janus", VStr "set_refcount_debug"); ("debug", VBool b)]
  | LibniceDebug => [("janus", VStr "set_libnice_debug"); ("debug", VBool b)]
  | MinNackQueue =>
      [("janus", VStr "set_min_nack_queue"); ("min_nack_queue", VInt z)]
  | NoMediaTimer =>
      [("janus", VStr "set_no_media_timer"); ("no_media_timer", VInt z)]
  end.

(** The key of the reply each setter reads its result from. *)
Definition setter_reply_key (s : setter) : string :=
  match s with
  | SessionTimeout => "timeout"
  | LogLevel => "level"
  | LogTimestamps => "log_timestamps"
  | LogColors => "log_colors"
  | LockingDebug => "locking_debug"
  | RefcountDebug => "refcount_debug"
  | LibniceDebug => "libnice_debug"
  | MinNackQueue => "min_nack_queue"
  | NoMediaTimer => "no_media_timer"
  end.

(** The success shape each setter waits for. *)
Definition setter_pattern (s : setter) : dict :=
  [("janus", VStr "success"); (setter_reply_key s, VNone)].

(** An authorized request goes out with the secret of the client. *)
Definition with_secret (self : JanusAdminMonitorClient) (d : dict) : dict :=
  dict_set "admin_secret" (VStr (__admin_secret self)) d.

(** A peer that answers the first request of [example_world] with an
    error, and one that answers with a bare success. *)
Definition example_error : dict :=
  [("janus", VStr "error"); ("transaction", VStr "0");
   ("error", VDict [("code", VInt 403); ("reason", VStr "Unauthorized")])].

Definition example_bare_success : dict :=
  [("janus", VStr "success"); ("transaction", VStr "0")].

Definition example_timeout_reply : dict :=
  [("janus", VStr "success"); ("transaction", VStr "0");
   ("timeout", VInt 120)].

Definition example_server_info : dict :=
  [("janus", VStr "server_info"); ("transaction", VStr "0");
   ("name", VStr "Janus WebRTC Server")].

Definition example_status : dict :=
  [("janus", VStr "success"); ("transaction", VStr "0");
   ("status", VDict [("log_level", VInt 4)])].

(** * Properties *)

(** ** Basic facts on dicts and on the subset test *)

Lemma dict_get_set (k k' : string) (v : value) (d : dict) :
  dict_get k' (dict_set k v d) =
  if String.eqb k' k then Some v else dict_get k' d.
Proof.
  induction d as [|[k0 v0] d IH]; simpl.
  - destruct (String.eqb k' k); reflexivity.
  - destruct (String.eqb k k0) eqn:E; simpl.
    + apply String.eqb_eq in E; subst k0.
      destruct (String.eqb k' k); reflexivity.
    + rewrite IH. destruct (String.eqb k' k0) eqn:E0; [|reflexivity].
      apply String.eqb_eq in E0; subst k0.
      destruct (String.eqb k' k) eqn:E1; [|reflexivity].
      apply String.eqb_eq in E1; subst k'.
      rewrite String.eqb_refl in E. discriminate.
  Qed.

Lemma dict_get_set_ne (k k' : string) (v : value) (d : dict) :
  k' ≠ k → dict_get k' (dict_set k v d) = dict_get k' d.
Proof.
  intros Hne. rewrite dict_get_set.
  destruct (String.eqb k' k) eqn:E; [|reflexivity].
  apply String.eqb_eq in E. contradiction.
Qed.

Lemma dict_get_set_eq (k : string) (v : value) (d : dict) :
  dict_get k (dict_set k v d) = Some v.
Proof. rewrite dict_get_set, String.eqb_refl. reflexivity. Qed.

Lemma dict_get_None_keys (k : string) (d : dict) :
  dict_get k d = None ↔ k ∉ map fst d.
Proof.
  induction d as [|[k0 v0] d IH]; simpl.
  - split; [intros _; apply not_elem_of_nil | reflexivity].
  - destruct (String.eqb k k0) eqn:E.
    + apply String.eqb_eq in E. subst. split; [discriminate|].
      intros H. exfalso. apply H. left.
    + apply String.eqb_neq in E. rewrite IH, not_elem_of_cons. tauto.
Qed.

(** [is_subset] is the conjunction of the per-key tests. *)
Lemma is_subset_forallb (m p : dict) :
  is_subset m p = forallb (key_matches m) p.
Proof.
  unfold is_subset. simpl.
  induction p as [|[k pv] p IH]; [reflexivity|].
  unfold key_matches at 1. simpl.
  destruct (dict_get k m); [|reflexivity].
  rewrite IH. reflexivity.
Qed.

Lemma is_subset_cons (m p : dict) (k : string) (pv : value) :
  is_subset m ((k, pv) :: p) = key_matches m (k, pv) && is_subset m p.
Proof. rewrite !is_subset_forallb. reflexivity. Qed.

(** The test looks at the candidate only under the keys of the pattern. *)
Lemma is_subset_agree (m m' p : dict) :
  (∀ k, k ∈ map fst p → dict_get k m = dict_get k m') →
  is_subset m p = is_subset m' p.
Proof.
  intros H. rewrite !is_subset_forallb.
  induction p as [|[k pv] p IH]; [reflexivity|].
  simpl. f_equal.
  - unfold key_matches. simpl. rewrite (H k); [reflexivity|]. simpl. left.
  - apply IH. intros k' Hk'. apply H. simpl. right. exact Hk'.
Qed.

(** ** The matcher *)

Lemma is_subset_nil (m : dict) : is_subset m [] = true.
Proof. reflexivity. Qed.

Lemma key_matches_None (m : dict) (k : string) (pv : value) :
  dict_get k m = None → key_matches m (k, pv) = false.
Proof. intros H. unfold key_matches. simpl. rewrite H. reflexivity. Qed.

Lemma is_subset_missing_key (m p : dict) (k : string) :
  k ∈ map fst p → dict_get k m = None → is_subset m p = false.
Proof.
  intros Hin Hm. rewrite is_subset_forallb.
  induction p as [|[k0 pv] p IH]; simpl in *.
  - apply elem_of_nil in Hin. contradiction.
  - apply elem_of_cons in Hin as [-> | Hin].
    + rewrite key_matches_None by assumption. reflexivity.
    + rewrite IH by assumption. apply andb_false_r.
Qed.

Lemma value_matches_VStr (a : string) (c : value) :
  value_matches (VStr a) c = true ↔ c = VStr a.
Proof.
  destruct c; simpl; try (split; discriminate).
  rewrite String.eqb_eq. split; [intros ->; reflexivity | intros [= ->]; reflexivity].
Qed.

Lemma value_matches_VDict (pd : dict) (c : value) :
  value_matches (VDict pd) c = true ↔
  ∃ cd, c = VDict cd ∧ is_subset cd pd = true.
Proof.
  destruct c as [| | | | |cd];
    try (split; [discriminate | intros (cd' & [=] & _)]).
  split.
  - intros H. exists cd. split; [reflexivity | exact H].
  - intros (cd' & [= <-] & H). exact H.
Qed.

Lemma key_matches_VNone (m : dict) (k : string) :
  key_matches m (k, VNone) = dict_has k m.
Proof. unfold key_matches, dict_has. simpl. destruct (dict_get k m); reflexivity. Qed.

(** What it takes to be a superset of the error shape. *)
Lemma is_subset_error_pattern (m : dict) :
  is_subset m error_pattern = true ↔
  dict_get "janus" m = Some (VStr "error") ∧
  ∃ e, dict_get "error" m = Some (VDict e) ∧
       dict_has "code" e = true ∧ dict_has "reason" e = true.
Proof.
  unfold error_pattern. rewrite !is_subset_cons, !andb_true_iff.
  unfold key_matches at 1 2. cbn [fst snd].
  rewrite is_subset_nil.
  split.
  - intros (Hj & He & _).
    destruct (dict_get "janus" m) as [j|]; [|discriminate].
    apply value_matches_VStr in Hj. subst j. split; [reflexivity|].
    destruct (dict_get "error" m) as [e|]; [|discriminate].
    apply value_matches_VDict in He as (cd & -> & He).
    exists cd. split; [reflexivity|].
    rewrite !is_subset_cons, !key_matches_VNone, !andb_true_iff in He.
    tauto.
  - intros (-> & e & -> & Hc & Hr). split; [|split; [|reflexivity]].
    + apply value_matches_VStr. reflexivity.
    + apply value_matches_VDict. exists e. split; [reflexivity|].
      rewrite !is_subset_cons, !key_matches_VNone, Hc, Hr. reflexivity.
Qed.

(** C3: the matcher that [send_wrapper] hands to [get] accepts an inbound
    message exactly when the message is a structural superset of the
    caller's pattern or of the error pattern
    [{"janus": "error", "error": {"code": None, "reason": None}}], that
    is when it says [error] and carries an error document with a [code]
    and a [reason]. *)
Theorem function_matcher_accepts (matcher m : dict) :
  (function_matcher matcher m = true ↔
   is_subset m matcher = true ∨ is_subset m error_pattern = true) ∧
  (function_matcher matcher m = true ↔
   is_subset m matcher = true ∨
   (dict_get "janus" m = Some (VStr "error") ∧
    ∃ e, dict_get "error" m = Some (VDict e) ∧
         dict_has "code" e = true ∧ dict_has "reason" e = true)).
Proof.
  unfold function_matcher. rewrite orb_true_iff.
  split; [reflexivity|]. rewrite is_subset_error_pattern. reflexivity.
Qed.

(** C6: the empty pattern matches every message. *)
Theorem is_subset_empty_pattern (m : dict) : is_subset m [] = true.
Proof. reflexivity. Qed.

(** C7: the test is a subset test.  A pattern with a key that the message
    lacks does not match; what the message holds under keys that are not
    in the pattern has no influence on the result, so that setting an
    extra key never turns a match into a mismatch. *)
Theorem is_subset_is_a_subset_test (m p : dict) :
  (∀ k, k ∈ map fst p → dict_get k m = None → is_subset m p = false) ∧
  (∀ k v, k ∉ map fst p → is_subset (dict_set k v m) p = is_subset m p) ∧
  (∀ m', (∀ k, k ∈ map fst p → dict_get k m' = dict_get k m) →
         is_subset m' p = is_subset m p).
Proof.
  split; [|split].
  - intros k. apply is_subset_missing_key.
  - intros k v Hk. apply is_subset_agree. intros k' Hk'.
    apply dict_get_set_ne. intros ->. contradiction.
  - intros m'. apply is_subset_agree.
Qed.

Lemma is_subset_is_a_subset_test_witness :
  is_subset [("a", VInt 1)] [("a", VInt 1); ("c", VInt 2)] = false ∧
  is_subset (dict_set "c" (VInt 2) [("a", VInt 1)]) [("a", VInt 1)]
  = is_subset [("a", VInt 1)] [("a", VInt 1)] ∧
  is_subset [("b", VBool true); ("a", VInt 1)] [("a", VInt 1)]
  = is_subset [("a", VInt 1)] [("a", VInt 1)].
Proof.
  split; [|split].
  - apply (proj1 (is_subset_is_a_subset_test
                    [("a", VInt 1)] [("a", VInt 1); ("c", VInt 2)]) "c").
    + simpl. right. left.
    + reflexivity.
  - apply (proj1 (proj2 (is_subset_is_a_subset_test
                           [("a", VInt 1)] [("a", VInt 1)]))).
    apply dict_get_None_keys. reflexivity.
  - apply (proj2 (proj2 (is_subset_is_a_subset_test
                           [("a", VInt 1)] [("a", VInt 1)]))).
    intros k Hk. simpl in Hk. apply list_elem_of_singleton in Hk.
    rewrite Hk. reflexivity.
Defined.

(** ** The client: attribute lookup, defaults and [__str__] *)

Lemma hasattr_send : hasattr "send" = false.
Proof. reflexivity. Qed.

Lemma hasattr_send_wrapper : hasattr "send_wrapper" = true.
Proof. reflexivity. Qed.

Lemma self_send_raises (send : JanusAdminMonitorClient → nat → M dict)
    (self : JanusAdminMonitorClient) (payload : nat) (w : world) :
  self_send send self payload w = (Raises (AttributeError "send"), w).
Proof. unfold self_send. rewrite hasattr_send. reflexivity. Qed.

(** C4: each of the five token requests ends in [AttributeError] for the
    name [send] and returns nothing, whatever its arguments and whatever
    an attribute [send] would have done: the lookup of [self.send] fails,
    the class binds [send_wrapper] but not [send]. *)
Theorem token_requests_raise_AttributeError
    (send : JanusAdminMonitorClient → nat → M dict)
    (defaults : add_token_defaults) (self : JanusAdminMonitorClient)
    (omitted_or_token : option string) (omitted_or_plugins : option (list value))
    (token : string) (plugins : list value) (w : world) :
  hasattr "send" = false ∧ hasattr "send_wrapper" = true ∧
  fst (add_token send defaults self omitted_or_token omitted_or_plugins w)
  = Raises (AttributeError "send") ∧
  fst (allow_token send self token plugins w) = Raises (AttributeError "send") ∧
  fst (disallow_token send self token plugins w)
  = Raises (AttributeError "send") ∧
  fst (list_tokens send self w) = Raises (AttributeError "send") ∧
  fst (remove_token send self token w) = Raises (AttributeError "send").
Proof.
  repeat split;
    unfold add_token, allow_token, disallow_token, list_tokens, remove_token,
      bind, alloc, setitem, ret;
    repeat match goal with
           | |- context [if ?b then _ else _] => destruct b
           end;
    cbn; rewrite ?self_send_raises; reflexivity.
Qed.

(** The payload that [add_token] builds, read back from the heap. *)
Lemma add_token_payload (send : JanusAdminMonitorClient → nat → M dict)
    (defaults : add_token_defaults) (self : JanusAdminMonitorClient)
    (token : option string) (plugins : option (list value)) (w : world) :
  ∃ p, first_allocated w (snd (add_token send defaults self token plugins w))
       = Some p ∧
       dict_get "janus" p = Some (VStr "add_token") ∧
       dict_get "token" p
       = Some (VStr (default (default_token defaults) token)) ∧
       uuid_drawn (snd (add_token send defaults self token plugins w))
       = uuid_drawn w.
Proof.
  unfold first_allocated, add_token, bind, alloc, setitem, ret.
  destruct (list_truthy _); cbn.
  - rewrite lookup_alter_eq, lookup_insert_eq. cbn.
    eexists. split; [reflexivity|]. split; [reflexivity|].
    split; reflexivity.
  - rewrite lookup_insert_eq.
    eexists. split; [reflexivity|]. split; [reflexivity|].
    split; reflexivity.
Qed.

(** C9: two calls of [add_token] that omit [token], on any two clients
    and in any two states of the process, put the same string in their
    payloads: the default that the [def] statement computed, with one draw
    from [uuid4], when it made the function.  The calls draw nothing. *)
Theorem add_token_default_token_is_shared
    (send : JanusAdminMonitorClient → nat → M dict)
    (defaults : add_token_defaults) (self1 self2 : JanusAdminMonitorClient)
    (plugins1 plugins2 : option (list value)) (w1 w2 : world) :
  (∃ p1 p2,
     first_allocated w1 (snd (add_token send defaults self1 None plugins1 w1))
     = Some p1 ∧
     first_allocated w2 (snd (add_token send defaults self2 None plugins2 w2))
     = Some p2 ∧
     dict_get "token" p1 = Some (VStr (default_token defaults)) ∧
     dict_get "token" p2 = dict_get "token" p1) ∧
  uuid_drawn (snd (add_token send defaults self1 None plugins1 w1))
  = uuid_drawn w1 ∧
  uuid_drawn (snd (add_token send defaults self2 None plugins2 w2))
  = uuid_drawn w2 ∧
  (∀ w0, def_add_token w0
         = (Returns {| default_token := uuid_stream w0 (uuid_drawn w0);
                       default_plugins := [] |},
            set_uuid_drawn (S (uuid_drawn w0)) w0)).
Proof.
  destruct (add_token_payload send defaults self1 None plugins1 w1)
    as (p1 & H1 & _ & T1 & U1).
  destruct (add_token_payload send defaults self2 None plugins2 w2)
    as (p2 & H2 & _ & T2 & U2).
  split; [|split; [exact U1 | split; [exact U2 | reflexivity]]].
  exists p1, p2. cbn in T1, T2. rewrite T2, T1. auto.
Qed.

(** C10: [str(c)] does not return, whatever the recursion limit: each
    call of [__str__] calls [__str__] on the same object before it has
    anything to return, and the interpreter ends the descent with
    [RecursionError]. *)
Theorem str_never_returns (depth : nat) (self : JanusAdminMonitorClient) :
  __str__ depth self = Raises RecursionError ∧
  ∀ s, __str__ depth self ≠ Returns s.
Proof.
  assert (H : __str__ depth self = Raises RecursionError).
  { induction depth as [|depth IH]; simpl; [reflexivity|].
    rewrite IH. reflexivity. }
  split; [exact H|]. intros s. rewrite H. discriminate.
Qed.

(** ** The transport: dispatch and [get] *)

Import Transport.

Lemma take_oldest_None (f : dict → bool) (b : list dict) :
  take_oldest f b = None ↔ ∀ m, m ∈ b → f m = false.
Proof.
  induction b as [|x b IH]; simpl.
  - split; [|reflexivity]. intros _ m Hm. apply elem_of_nil in Hm. contradiction.
  - destruct (f x) eqn:Hx.
    + split; [discriminate|]. intros H. rewrite (H x) in Hx; [discriminate|left].
    + destruct (take_oldest f b) as [[y r]|].
      * split; [discriminate|]. intros H.
        assert (None = Some (y, r)) as [=].
        { symmetry. apply IH. intros m Hm. apply H. right. exact Hm. }
      * split; [|reflexivity]. intros _ m Hm.
        apply elem_of_cons in Hm as [-> | Hm]; [exact Hx|].
        apply (proj1 IH); [reflexivity | exact Hm].
Qed.

(** [take_oldest] takes the oldest accepted message and nothing else. *)
Lemma take_oldest_Some (f : dict → bool) (b : list dict) (m : dict)
    (rest : list dict) :
  take_oldest f b = Some (m, rest) →
  f m = true ∧
  ∃ older newer : list dict,
    b = (older ++ m :: newer)%list ∧ rest = (older ++ newer)%list ∧
                 ∀ x, x ∈ older → f x = false.
Proof.
  revert rest. induction b as [|x b IH]; simpl; intros rest; [discriminate|].
  destruct (f x) eqn:Hx.
  - intros [= -> ->]. split; [exact Hx|]. exists [], rest.
    repeat split. intros y Hy. apply elem_of_nil in Hy. contradiction.
  - destruct (take_oldest f b) as [[y r]|]; [|discriminate].
    intros [= -> <-]. destruct (IH r eq_refl) as (Hm & older & newer & -> & -> & Hold).
    split; [exact Hm|]. exists (x :: older), newer. repeat split.
    intros z Hz. apply elem_of_cons in Hz as [-> | Hz]; [exact Hx | auto].
Qed.

Lemma deliver_calls (ev : event) (st : state) : calls (deliver ev st) = calls st.
Proof.
  destruct ev as [m|]; [|reflexivity]. unfold deliver, dispatch.
  destruct (transaction_id m) as [t|]; [|reflexivity].
  destruct (registry st !! t); reflexivity.
Qed.

Lemma deliver_wire (ev : event) (st : state) : wire (deliver ev st) = wire st.
Proof.
  destruct ev as [m|]; [|reflexivity]. unfold deliver, dispatch.
  destruct (transaction_id m) as [t|]; [|reflexivity].
  destruct (registry st !! t); reflexivity.
Qed.

Lemma dispatch_connected (m : dict) (st : state) :
  connected (dispatch m st) = connected st.
Proof.
  unfold dispatch. destruct (transaction_id m) as [t|]; [|reflexivity].
  destruct (registry st !! t); reflexivity.
Qed.

(** No event opens or closes a transaction. *)
Lemma deliver_open (ev : event) (st : state) (h : string) :
  is_Some (registry (deliver ev st) !! h) ↔ is_Some (registry st !! h).
Proof.
  destruct ev as [m|]; [|reflexivity]. unfold deliver, dispatch.
  destruct (transaction_id m) as [t|]; [|reflexivity].
  destruct (registry st !! t) as [tx|] eqn:Ht; [|reflexivity].
  cbn. rewrite lookup_insert_is_Some.
  split.
  - intros [<- | [_ H]]; [|exact H]. rewrite Ht. eauto.
  - intros H. destruct (decide (t = h)); auto.
Qed.

(** A transaction buffers what is delivered under its id, in order. *)
Lemma buffer_of_dispatch_own (m : dict) (st : state) (h : string)
    (tx : Transaction) :
  transaction_id m = Some h → registry st !! h = Some tx →
  buffer_of h (dispatch m st) = (buffer tx ++ [m])%list.
Proof.
  intros Hid Hreg. unfold buffer_of, dispatch. rewrite Hid, Hreg. cbn.
  rewrite lookup_insert_eq. reflexivity.
Qed.

Lemma buffer_of_dispatch_other (m : dict) (st : state) (h : string) :
  transaction_id m ≠ Some h →
  buffer_of h (dispatch m st) = buffer_of h st.
Proof.
  intros Hid. unfold buffer_of, dispatch.
  destruct (transaction_id m) as [t|]; [|reflexivity].
  destruct (registry st !! t) as [tx|]; [|reflexivity].
  cbn. rewrite lookup_insert_ne; [reflexivity|]. intros ->. contradiction.
Qed.

(** Only a message with the id of a transaction enters its buffer. *)
Lemma buffer_of_deliver (ev : event) (st : state) (h : string) (x : dict) :
  x ∈ buffer_of h (deliver ev st) →
  x ∈ buffer_of h st ∨ (ev = Deliver x ∧ transaction_id x = Some h).
Proof.
  destruct ev as [m|]; [|left; assumption]. simpl.
  destruct (decide (transaction_id m = Some h)) as [Hid|Hid].
  - destruct (registry st !! h) as [tx|] eqn:Hreg.
    + rewrite (buffer_of_dispatch_own m st h tx Hid Hreg).
      intros [Hx | Hx]%elem_of_app.
      * left. unfold buffer_of. rewrite Hreg. exact Hx.
      * apply list_elem_of_singleton in Hx. subst x. right. auto.
    + unfold buffer_of at 1, dispatch. rewrite Hid, Hreg. cbn. rewrite Hreg.
      intros Hx. apply elem_of_nil in Hx. contradiction.
  - rewrite buffer_of_dispatch_other by assumption. auto.
Qed.

(** One step of the wait. *)
Lemma wait_eq (h : string) (f : dict → bool) (budget : option N)
    (evs : list (N * event)) (st : state) :
  wait h f budget evs st =
  if negb (connected st) then (Raises TransportClosed, set_inbound evs st)
  else
    match take_oldest f (buffer_of h st) with
    | Some (m, rest) => (Returns m, set_inbound evs (set_buffer h rest st))
    | None =>
        match evs with
        | [] =>
            match budget with
            | Some _ => (Raises Timeout, set_inbound [] st)
            | None => (Suspended, set_inbound [] st)
            end
        | (dt, ev) :: evs' =>
            match budget with
            | Some b =>
                if (b <? dt)%N
                then (Raises Timeout, set_inbound ((dt - b, ev)%N :: evs') st)
                else wait h f (Some (b - dt)%N) evs' (deliver ev st)
            | None => wait h f None evs' (deliver ev st)
            end
        end
    end.
Proof. destruct evs; reflexivity. Qed.

(** The wait writes nothing and calls nothing. *)
Lemma wait_frame (h : string) (f : dict → bool) (budget : option N)
    (evs : list (N * event)) (st : state) :
  calls (snd (wait h f budget evs st)) = calls st ∧
  wire (snd (wait h f budget evs st)) = wire st.
Proof.
  revert budget st. induction evs as [|[dt ev] evs IH]; intros budget st;
    rewrite wait_eq.
  - destruct (connected st); simpl; [|auto].
    destruct (take_oldest f (buffer_of h st)) as [[m rest]|]; [auto|].
    destruct budget; auto.
  - destruct (connected st); simpl; [|auto].
    destruct (take_oldest f (buffer_of h st)) as [[m rest]|]; [auto|].
    destruct budget as [b|].
    + destruct (b <? dt)%N; [auto|].
      destruct (IH (Some (b - dt)%N) (deliver ev st)) as [-> ->].
      rewrite deliver_calls, deliver_wire. auto.
    + destruct (IH None (deliver ev st)) as [-> ->].
      rewrite deliver_calls, deliver_wire. auto.
Qed.

(** The only exceptions out of the wait, and [Timeout] only with a
    timeout. *)
Lemma wait_raises (h : string) (f : dict → bool) (budget : option N)
    (evs : list (N * event)) (st : state) (e : exn) :
  fst (wait h f budget evs st) = Raises e →
  e = TransportClosed ∨ (e = Timeout ∧ is_Some budget).
Proof.
  revert budget st. induction evs as [|[dt ev] evs IH]; intros budget st;
    rewrite wait_eq.
  - destruct (connected st); simpl; [|intros [= <-]; auto].
    destruct (take_oldest f (buffer_of h st)) as [[m rest]|]; [discriminate|].
    destruct budget; [|discriminate]. intros [= <-]. right. eauto.
  - destruct (connected st); simpl; [|intros [= <-]; auto].
    destruct (take_oldest f (buffer_of h st)) as [[m rest]|]; [discriminate|].
    destruct budget as [b|].
    + destruct (b <? dt)%N; [intros [= <-]; right; eauto|].
      intros H. apply IH in H as [H | [H _]]; [auto | right; eauto].
    + apply IH.
Qed.

(** What the wait returns was accepted by the matcher, and came out of
    the buffer of the transaction or in under its id. *)
Lemma wait_returns (h : string) (f : dict → bool) (budget : option N)
    (evs : list (N * event)) (st : state) (r : dict) :
  fst (wait h f budget evs st) = Returns r →
  f r = true ∧
  (r ∈ buffer_of h st ∨
   (Deliver r ∈ arrivals budget evs ∧ transaction_id r = Some h)).
Proof.
  revert budget st. induction evs as [|[dt ev] evs IH]; intros budget st;
    rewrite wait_eq.
  - destruct (connected st); simpl; [|discriminate].
    destruct (take_oldest f (buffer_of h st)) as [[m rest]|] eqn:Ht.
    + intros [= ->]. apply take_oldest_Some in Ht as (Hm & o & n & Hb & _).
      split; [exact Hm|]. left. rewrite Hb. apply elem_of_app. right. left.
    + destruct budget; discriminate.
  - destruct (connected st); simpl; [|discriminate].
    destruct (take_oldest f (buffer_of h st)) as [[m rest]|] eqn:Ht.
    + intros [= ->]. apply take_oldest_Some in Ht as (Hm & o & n & Hb & _).
      split; [exact Hm|]. left. rewrite Hb. apply elem_of_app. right. left.
    + destruct budget as [b|].
      * destruct (b <? dt)%N; [discriminate|].
        intros H. apply IH in H as [Hf [H | [H Hid]]]; (split; [exact Hf|]).
        -- apply buffer_of_deliver in H as [H | [-> Hid]]; [auto|].
           right. split; [left | exact Hid].
        -- right. split; [right; exact H | exact Hid].
      * intros H. apply IH in H as [Hf [H | [H Hid]]]; (split; [exact Hf|]).
        -- apply buffer_of_deliver in H as [H | [-> Hid]]; [auto|].
           right. split; [left | exact Hid].
        -- right. split; [right; exact H | exact Hid].
Qed.

(** With nothing acceptable in the buffer or on its way in time, and the
    connection up for that long, the wait ends in [Timeout], or never
    ends when there is no timeout. *)
Lemma wait_nothing (h : string) (f : dict → bool) (budget : option N)
    (evs : list (N * event)) (st : state) :
  connected st = true →
  Disconnect ∉ arrivals budget evs →
  nothing_qualifies h f (buffer_of h st) (arrivals budget evs) →
  fst (wait h f budget evs st)
  = match budget with Some _ => Raises Timeout | None => Suspended end.
Proof.
  revert budget st. induction evs as [|[dt ev] evs IH];
    intros budget st Hc Hd [Hb He]; rewrite wait_eq, Hc; simpl;
    rewrite (proj2 (take_oldest_None f (buffer_of h st)) Hb).
  - destruct budget; reflexivity.
  - assert (Hstep : ∀ budget',
      arrivals budget ((dt, ev) :: evs) = ev :: arrivals budget' evs →
      fst (wait h f budget' evs (deliver ev st))
      = match budget' with Some _ => Raises Timeout | None => Suspended end).
    { intros budget' Harr. rewrite Harr in Hd, He.
      apply not_elem_of_cons in Hd as [Hev Hd].
      destruct ev as [m|]; [|contradiction].
      apply IH; [rewrite <- Hc; apply dispatch_connected | exact Hd |].
      split.
      - intros x Hx. apply (buffer_of_deliver (Deliver m)) in Hx
          as [Hx | [[= ->] Hid]]; [auto|].
        apply He; [left | exact Hid].
      - intros x Hx Hid. apply He; [right; exact Hx | exact Hid]. }
    destruct budget as [b|]; simpl in *.
    + destruct (b <? dt)%N; [reflexivity|]. apply (Hstep (Some (b - dt)%N)).
      reflexivity.
    + apply (Hstep None). reflexivity.
Qed.

Lemma take_oldest_newest (f : dict → bool) (b : list dict) (r : dict) :
  (∀ m, m ∈ b → f m = false) → f r = true →
  take_oldest f (b ++ [r]) = Some (r, b).
Proof.
  intros Hb Hr. induction b as [|x b IH]; simpl.
  - rewrite Hr. reflexivity.
  - rewrite (Hb x) by left. rewrite IH; [reflexivity|].
    intros m Hm. apply Hb. right. exact Hm.
Qed.

Lemma set_buffer_open (h h' : string) (b : list dict) (st : state) :
  is_Some (registry (set_buffer h b st) !! h') ↔ is_Some (registry st !! h').
Proof.
  unfold set_buffer. cbn. rewrite lookup_alter_is_Some. reflexivity.
Qed.

(** The wait opens and closes no transaction. *)
Lemma wait_open (h : string) (f : dict → bool) (budget : option N)
    (evs : list (N * event)) (st : state) (h' : string) :
  is_Some (registry (snd (wait h f budget evs st)) !! h')
  ↔ is_Some (registry st !! h').
Proof.
  revert budget st. induction evs as [|[dt ev] evs IH]; intros budget st;
    rewrite wait_eq.
  - destruct (connected st); simpl; [|reflexivity].
    destruct (take_oldest f (buffer_of h st)) as [[m rest]|].
    + apply set_buffer_open.
    + destruct budget; reflexivity.
  - destruct (connected st); simpl; [|reflexivity].
    destruct (take_oldest f (buffer_of h st)) as [[m rest]|].
    + apply set_buffer_open.
    + destruct budget as [b|].
      * destruct (b <? dt)%N; [reflexivity|]. rewrite IH. apply deliver_open.
      * rewrite IH. apply deliver_open.
Qed.

(** A message of the transaction that the matcher accepts is returned
    when it arrives in time, after events that brought nothing
    acceptable. *)
Lemma wait_delivered (h : string) (f : dict → bool) (budget : option N)
    (quiet later : list (N * event)) (dt : N) (r : dict) (st : state) :
  connected st = true → is_Some (registry st !! h) →
  Disconnect ∉ map snd quiet →
  nothing_qualifies h f (buffer_of h st) (map snd quiet) →
  (∀ b, budget = Some b → (total_delay quiet + dt ≤ b)%N) →
  transaction_id r = Some h → f r = true →
  fst (wait h f budget (quiet ++ (dt, Deliver r) :: later)%list st) = Returns r.
Proof.
  intros Hc Ho Hd Hq Hb Hid Hr.
  revert budget st Hc Ho Hd Hq Hb.
  induction quiet as [|[d0 ev] quiet IH]; intros budget st Hc Ho Hd [Hbuf Hev] Hb.
  - cbn [app]. rewrite wait_eq, Hc. cbn [negb].
    rewrite (proj2 (take_oldest_None f (buffer_of h st)) Hbuf).
    assert (Hnext : ∀ budget',
      fst (wait h f budget' later (deliver (Deliver r) st)) = Returns r).
    { intros budget'. rewrite wait_eq. cbn [deliver].
      rewrite dispatch_connected, Hc. cbn [negb].
      destruct Ho as [tx Htx].
      rewrite (buffer_of_dispatch_own r st h tx Hid Htx).
      rewrite take_oldest_newest; [reflexivity | | exact Hr].
      unfold buffer_of in Hbuf. rewrite Htx in Hbuf. exact Hbuf. }
    destruct budget as [b|]; [|apply Hnext].
    specialize (Hb b eq_refl). simpl in Hb.
    destruct (N.ltb_spec b dt) as [Hlt|_]; [lia|]. apply Hnext.
  - simpl in Hd. apply not_elem_of_cons in Hd as [Hev0 Hd].
    destruct ev as [m|]; [|contradiction].
    rewrite <- app_comm_cons. rewrite wait_eq, Hc. cbn [negb].
    rewrite (proj2 (take_oldest_None f (buffer_of h st)) Hbuf).
    assert (Hnext : ∀ budget',
      (∀ b, budget' = Some b → (total_delay quiet + dt ≤ b)%N) →
      fst (wait h f budget' (quiet ++ (dt, Deliver r) :: later)%list
             (deliver (Deliver m) st)) = Returns r).
    { intros budget' Hb'. apply IH.
      - cbn [deliver]. rewrite dispatch_connected. exact Hc.
      - apply deliver_open. exact Ho.
      - exact Hd.
      - split.
        + intros x Hx. apply (buffer_of_deliver (Deliver m)) in Hx
            as [Hx | [[= ->] Hx]]; [auto|].
          apply Hev; [left | exact Hx].
        + intros x Hx Hx'. apply Hev; [right; exact Hx | exact Hx'].
      - exact Hb'. }
    destruct budget as [b|].
    + specialize (Hb b eq_refl). simpl in Hb.
      destruct (N.ltb_spec b d0) as [Hlt|_]; [lia|].
      apply Hnext. intros b' [= <-]. lia.
    + apply Hnext. intros b' [=].
Qed.

(** What [send] does on a connected transport. *)
Lemma send_connected (m : dict) (st : state) :
  connected st = true →
  ∃ id st1,
    sent m st = (Returns id, st1) ∧
    id = match transaction_id m with
         | Some t => t
         | None => fresh (dom (registry st))
         end ∧
    connected st1 = true ∧
    is_Some (registry st1 !! id) ∧
    (registry st !! id = None → buffer_of id st1 = []) ∧
    (∀ h, is_Some (registry st !! h) → is_Some (registry st1 !! h)) ∧
    inbound st1 = inbound st ∧
    calls st1 = (calls st ++ [CallSend m])%list ∧
    wire st1 = (wire st ++ [dict_set "transaction" (VStr id) m])%list.
Proof.
  intros Hc. unfold sent, Transport.register, Transport.write. cbn.
  rewrite Hc. cbn.
  eexists _, _. split; [reflexivity|]. split; [reflexivity|]. cbn.
  set (id := match transaction_id m with
             | Some t => t
             | None => fresh (dom (registry st))
             end).
  repeat split; try assumption.
  - destruct (registry st !! id) eqn:E; [rewrite E; eauto|].
    rewrite lookup_insert_eq. eauto.
  - intros Hn. unfold buffer_of. cbn. rewrite Hn, lookup_insert_eq. reflexivity.
  - intros h Hh. destruct (registry st !! id) eqn:E; [exact Hh|].
    apply lookup_insert_is_Some. destruct (decide (id = h)); auto.
Qed.

Lemma send_calls (m : dict) (st : state) :
  calls (snd (sent m st)) = (calls st ++ [CallSend m])%list.
Proof.
  unfold sent, Transport.register. cbn. destruct (connected st); reflexivity.
Qed.

Lemma fresh_transaction (st : state) :
  registry st !! fresh (dom (registry st)) = None.
Proof. apply not_elem_of_dom. apply is_fresh. Qed.

(** ** Frame rules of the monad *)

Lemma bind_ret {A B} (a : A) (k : A → M B) (w : world) :
  bind (ret a) k w = k a w.
Proof. reflexivity. Qed.

Lemma bind_load {B} (l : nat) (k : dict → M B) (w : world) :
  bind (load l) k w = k (default [] (heap w !! l)) w.
Proof. reflexivity. Qed.

Lemma bind_alloc {B} (d : dict) (k : nat → M B) (w : world) :
  bind (alloc d) k w
  = k (fresh (dom (heap w)))
      (set_heap (<[fresh (dom (heap w)) := d]> (heap w)) w).
Proof. reflexivity. Qed.

Lemma bind_setitem {B} (l : nat) (key : string) (v : value) (k : unit → M B)
    (w : world) :
  bind (setitem l key v) k w
  = k tt (set_heap (alter (dict_set key v) l (heap w)) w).
Proof. reflexivity. Qed.

Lemma bind_bind {A B C} (c : M A) (k : A → M B) (k' : B → M C) (w : world) :
  bind (bind c k) k' w = bind c (fun a => bind (k a) k') w.
Proof. unfold bind. destruct (c w) as [[a|e|] w']; reflexivity. Qed.

Lemma touches_only_ret (l : nat) {A} (a : A) : touches_only l (ret a).
Proof. intros w l' _. reflexivity. Qed.

Lemma touches_only_load (l l0 : nat) : touches_only l (load l0).
Proof. intros w l' _. reflexivity. Qed.

Lemma touches_only_setitem (l : nat) (k : string) (v : value) :
  touches_only l (setitem l k v).
Proof. intros w l' Hl. cbn. apply lookup_alter_ne. congruence. Qed.

Lemma touches_only_suspension (l : nat) : touches_only l suspension.
Proof.
  intros w l' _. unfold suspension. destruct (cancel_at w) as [[|n]|]; reflexivity.
Qed.

Lemma touches_only_on_transport (l : nat) {A}
    (op : Transport.state → outcome A * Transport.state) :
  touches_only l (on_transport op).
Proof.
  intros w l' _. unfold on_transport. destruct (op (transport w)). reflexivity.
Qed.

Lemma touches_only_suspending (l : nat) {A}
    (called : Transport.state → Transport.state)
    (op : Transport.state → outcome A * Transport.state) :
  touches_only l (suspending called op).
Proof.
  intros w l' Hl. unfold suspending.
  destruct (cancel_at w) as [[|n]|]; [reflexivity| |].
  - rewrite (touches_only_on_transport l op _ l' Hl). reflexivity.
  - apply (touches_only_on_transport l op _ l' Hl).
Qed.

Lemma touches_only_bind (l : nat) {A B} (c : M A) (k : A → M B) :
  touches_only l c → (∀ a, touches_only l (k a)) → touches_only l (bind c k).
Proof.
  intros Hc Hk w l' Hl. unfold bind. specialize (Hc w l' Hl).
  destruct (c w) as [[a|e|] w']; simpl in *; [|exact Hc..].
  rewrite (Hk a w' l' Hl). exact Hc.
Qed.

Lemma touches_only_await (l : nat) {A} (c : M A) :
  touches_only l c → touches_only l (await c).
Proof. intros H. exact H. Qed.

(** [send] writes the id into the object it is handed, and into no
    other. *)
Lemma touches_only_transport_send (l : nat) : touches_only l (transport_send l).
Proof.
  unfold transport_send.
  apply touches_only_bind; [apply touches_only_load|]. intros m.
  apply touches_only_bind; [apply touches_only_on_transport|]. intros id.
  apply touches_only_bind; [apply touches_only_setitem|]. intros _.
  apply touches_only_bind; [apply touches_only_suspension|]. intros _.
  apply touches_only_bind; [apply touches_only_load|]. intros outbound.
  apply touches_only_bind; [apply touches_only_on_transport|]. intros _.
  apply touches_only_ret.
Qed.

Lemma calls_only_ret (P : call → Prop) {A} (a : A) : calls_only P (ret a).
Proof. intros w. exists []. rewrite app_nil_r. split; [reflexivity | constructor]. Qed.

Lemma calls_only_load (P : call → Prop) (l : nat) : calls_only P (load l).
Proof. intros w. exists []. rewrite app_nil_r. split; [reflexivity | constructor]. Qed.

Lemma calls_only_alloc (P : call → Prop) (d : dict) : calls_only P (alloc d).
Proof. intros w. exists []. rewrite app_nil_r. split; [reflexivity | constructor]. Qed.

Lemma calls_only_setitem (P : call → Prop) (l : nat) (k : string) (v : value) :
  calls_only P (setitem l k v).
Proof. intros w. exists []. rewrite app_nil_r. split; [reflexivity | constructor]. Qed.

Lemma calls_only_bind (P : call → Prop) {A B} (c : M A) (k : A → M B) :
  calls_only P c → (∀ a, calls_only P (k a)) → calls_only P (bind c k).
Proof.
  intros Hc Hk w. unfold bind. destruct (Hc w) as (l & Hl & HP).
  destruct (c w) as [[a|e|] w']; simpl in *; [|exists l; auto..].
  destruct (Hk a w') as (l' & Hl' & HP'). exists (l ++ l')%list.
  rewrite Hl', Hl, app_assoc. split; [reflexivity|].
  apply Forall_app. auto.
Qed.

Lemma calls_only_await (P : call → Prop) {A} (c : M A) :
  calls_only P c → calls_only P (await c).
Proof. intros H. exact H. Qed.

Lemma calls_only_suspension (P : call → Prop) : calls_only P suspension.
Proof.
  intros w. exists []. rewrite app_nil_r. unfold suspension.
  destruct (cancel_at w) as [[|n]|]; (split; [reflexivity | constructor]).
Qed.

Lemma calls_only_register (P : call → Prop) (m : dict) :
  P (CallSend m) → calls_only P (on_transport (Transport.register m)).
Proof.
  intros HP w. exists [CallSend m]. unfold on_transport, Transport.register.
  cbn. destruct (connected (transport w)); cbn; (split; [reflexivity|]);
    repeat constructor; exact HP.
Qed.

Lemma calls_only_write (P : call → Prop) (m : dict) :
  calls_only P (on_transport (Transport.write m)).
Proof.
  intros w. exists []. rewrite app_nil_r. split; [reflexivity | constructor].
Qed.

Lemma calls_only_transport_send (P : call → Prop) (l : nat) :
  (∀ m, P (CallSend m)) → calls_only P (transport_send l).
Proof.
  intros HP. unfold transport_send.
  apply calls_only_bind; [apply calls_only_load|]. intros m.
  apply calls_only_bind; [apply calls_only_register, HP|]. intros id.
  apply calls_only_bind; [apply calls_only_setitem|]. intros _.
  apply calls_only_bind; [apply calls_only_suspension|]. intros _.
  apply calls_only_bind; [apply calls_only_load|]. intros outbound.
  apply calls_only_bind; [apply calls_only_write|]. intros _.
  apply calls_only_ret.
Qed.

Lemma get_calls (h : string) (f : dict → bool) (timeout : option N)
    (st : state) :
  calls (snd (Transport.get h f timeout st))
  = (calls st ++ [CallGet h timeout])%list.
Proof.
  unfold Transport.get.
  rewrite (proj1 (wait_frame h f timeout _ _)). reflexivity.
Qed.

Lemma get_wire (h : string) (f : dict → bool) (timeout : option N)
    (st : state) :
  wire (snd (Transport.get h f timeout st)) = wire st.
Proof.
  unfold Transport.get.
  rewrite (proj2 (wait_frame h f timeout _ _)). reflexivity.
Qed.

Lemma get_open (h : string) (f : dict → bool) (timeout : option N)
    (st : state) (h' : string) :
  is_Some (registry (snd (Transport.get h f timeout st)) !! h')
  ↔ is_Some (registry st !! h').
Proof. unfold Transport.get. rewrite wait_open. reflexivity. Qed.

Lemma done_calls (h : string) (st : state) :
  calls (snd (Transport.done h st)) = (calls st ++ [CallDone h])%list.
Proof. reflexivity. Qed.

(** A suspending operation makes its call whether it is cancelled or
    not. *)
Lemma calls_only_suspending (P : call → Prop) {A} (c : call)
    (op : Transport.state → outcome A * Transport.state) :
  P c → (∀ st, calls (snd (op st)) = (calls st ++ [c])%list) →
  calls_only P (suspending (Transport.log c) op).
Proof.
  intros HP Hop w. exists [c]. split; [|repeat constructor; exact HP].
  unfold suspending, on_transport.
  destruct (cancel_at w) as [[|n]|]; cbn.
  - reflexivity.
  - specialize (Hop (transport w)).
    destruct (op (transport w)) as [r st']. exact Hop.
  - specialize (Hop (transport w)).
    destruct (op (transport w)) as [r st']. exact Hop.
Qed.

Lemma calls_only_transport_get (P : call → Prop) (h : string) (f : dict → bool)
    (timeout : option N) :
  P (CallGet h timeout) → calls_only P (transport_get h f timeout).
Proof.
  intros HP. apply calls_only_suspending; [exact HP|].
  intros st. apply get_calls.
Qed.

Lemma calls_only_transport_done (P : call → Prop) (h : string) :
  P (CallDone h) → calls_only P (transport_done h).
Proof.
  intros HP. apply calls_only_suspending; [exact HP|].
  intros st. apply done_calls.
Qed.

(** ** [send_wrapper] *)

Create HintDb frame.

#[local] Hint Resolve touches_only_ret touches_only_load touches_only_setitem
  touches_only_bind touches_only_await touches_only_transport_send
  touches_only_suspending : frame.

#[local] Hint Resolve calls_only_ret calls_only_load calls_only_alloc
  calls_only_setitem calls_only_bind calls_only_await
  calls_only_transport_send calls_only_transport_done
  calls_only_transport_get : frame.

Lemma get_with_send (timeout : option N) (m : dict) :
  get_with timeout (CallSend m).
Proof. intros id t. discriminate. Qed.

Lemma get_with_done (timeout : option N) (h : string) :
  get_with timeout (CallDone h).
Proof. intros id t. discriminate. Qed.

Lemma get_with_get (timeout : option N) (h : string) :
  get_with timeout (CallGet h timeout).
Proof. intros id t [= _ <-]. reflexivity. Qed.

#[local] Hint Resolve get_with_send get_with_done get_with_get : frame.

(** Every [get] that [send_wrapper] calls has [send_wrapper]'s timeout. *)
Lemma send_wrapper_calls_only (self : JanusAdminMonitorClient) (message : nat)
    (matcher jsep : dict) (timeout : option N) (authorize : bool) :
  calls_only (get_with timeout)
    (send_wrapper self message matcher jsep timeout authorize).
Proof.
  unfold send_wrapper.
  destruct (dict_truthy jsep), authorize; auto 20 with frame.
Qed.

Lemma prepared_heap_lookup (self : JanusAdminMonitorClient) (message : nat)
    (m jsep : dict) (authorize : bool) (w : world) :
  heap w !! message = Some m →
  prepared_heap self message jsep authorize w !! full_message_ref message jsep w
  = Some (full_message_content self m jsep authorize).
Proof.
  intros Hm. unfold prepared_heap, full_message_ref, full_message_content.
  destruct (dict_truthy jsep), authorize;
    rewrite ?lookup_alter_eq, ?lookup_insert_eq, ?Hm; reflexivity.
Qed.

(** The run of [send_wrapper] in a task that is not cancelled: the
    transport is sent the full message, [get] is called on the transaction
    that [send] returned, and [done] after [get] has returned; the object
    that was sent has the id of the transaction. *)
Lemma send_wrapper_run (self : JanusAdminMonitorClient) (message : nat)
    (m matcher jsep : dict) (timeout : option N) (authorize : bool)
    (w : world) :
  heap w !! message = Some m → cancel_at w = None →
  send_wrapper self message matcher jsep timeout authorize w =
    match sent (full_message_content self m jsep authorize) (transport w) with
    | (Returns id, st1) =>
        match Transport.get id (function_matcher matcher) timeout st1 with
        | (Returns r, st2) =>
            (Returns r,
             set_transport (snd (Transport.done id st2))
               (set_heap (sent_heap self message jsep authorize w id) w))
        | (Raises e, st2) =>
            (Raises e,
             set_transport st2
               (set_heap (sent_heap self message jsep authorize w id) w))
        | (Suspended, st2) =>
            (Suspended,
             set_transport st2
               (set_heap (sent_heap self message jsep authorize w id) w))
        end
    | (Raises e, st1) =>
        (Raises e,
         set_transport st1
           (set_heap (prepared_heap self message jsep authorize w) w))
    | (Suspended, st1) =>
        (Suspended,
         set_transport st1
           (set_heap (prepared_heap self message jsep authorize w) w))
    end.
Proof.
  intros Hm Hc.
  pose proof (prepared_heap_lookup self message m jsep authorize w Hm) as Hp.
  unfold sent_heap. revert Hp.
  unfold send_wrapper, prepared_heap, full_message_ref, sent.
  generalize (full_message_content self m jsep authorize). intros full Hp.
  destruct (dict_truthy jsep), authorize;
    unfold transport_send, transport_get, transport_done, suspending,
      suspension, bind, await, on_transport, load, alloc, setitem, ret;
    repeat (progress (cbn [heap transport cancel_at set_heap set_transport
                           fst snd default from_option Datatypes.id fmap
                           option_fmap option_map Transport.write];
                      rewrite ?Hc, ?Hp; try (rewrite lookup_alter_eq, Hp)));
    (destruct (Transport.register full (transport w)) as [[tid|e|] st1];
     repeat (progress (cbn [heap transport cancel_at set_heap set_transport
                            fst snd default from_option Datatypes.id fmap
                            option_fmap option_map Transport.write];
                       rewrite ?Hc, ?Hp; try (rewrite lookup_alter_eq, Hp)));
     [|reflexivity..]);
    (destruct (Transport.get tid _ timeout _) as [[r|e|] st2];
     repeat (progress (cbn [heap transport cancel_at set_heap set_transport
                            fst snd];
                       rewrite ?Hc));
     reflexivity).
Qed.

(** ** [get] and its timeout *)

Lemma send_wrapper_calls_get (self : JanusAdminMonitorClient) (message : nat)
    (m matcher jsep : dict) (timeout : option N) (authorize : bool)
    (w : world) :
  heap w !! message = Some m → cancel_at w = None →
  connected (transport w) = true →
  ∃ id, CallGet id timeout
        ∈ calls (transport (snd (send_wrapper self message matcher jsep
                                   timeout authorize w))).
Proof.
  intros Hm Hc Hconn.
  rewrite (send_wrapper_run self message m matcher jsep timeout authorize w
             Hm Hc).
  destruct (send_connected (full_message_content self m jsep authorize)
              (transport w) Hconn) as (id & st1 & -> & _).
  exists id.
  pose proof (get_calls id (function_matcher matcher) timeout st1) as Hg.
  destruct (Transport.get id (function_matcher matcher) timeout st1)
    as [[r|e|] st2]; cbn in *; rewrite Hg.
  - apply elem_of_app. left. apply elem_of_app. right. left.
  - apply elem_of_app. right. left.
  - apply elem_of_app. right. left.
Qed.

(** C5: [get(matcher, timeout)] on a connected transport ends in
    [Timeout] when no message of the transaction that the matcher accepts
    is buffered or arrives within the timeout; with [timeout=None] it
    never ends in [Timeout] and, with nothing acceptable ever arriving,
    stays suspended; [Timeout] and [TransportClosed] are the only
    exceptions it raises.  [send_wrapper] calls [get] with its own
    [timeout] argument and no other, and the default of that argument
    is 15. *)
Theorem get_timeout_contract (h : string) (matcher : dict → bool)
    (timeout : option N) (st : Transport.state) :
  (connected st = true →
   Disconnect ∉ arrivals timeout (inbound st) →
   nothing_qualifies h matcher (buffer_of h st) (arrivals timeout (inbound st)) →
   fst (Transport.get h matcher timeout st)
   = match timeout with Some _ => Raises Timeout | None => Suspended end) ∧
  (timeout = None → fst (Transport.get h matcher timeout st) ≠ Raises Timeout) ∧
  (∀ e, fst (Transport.get h matcher timeout st) = Raises e →
        e = Timeout ∨ e = TransportClosed) ∧
  (∀ self message pattern jsep authorize w,
     ∃ l, calls (transport (snd (send_wrapper self message pattern jsep
                                   timeout authorize w)))
          = (calls (transport w) ++ l)%list ∧
          ∀ id t, CallGet id t ∈ l → t = timeout) ∧
  (∀ self message m pattern jsep authorize w,
     heap w !! message = Some m → cancel_at w = None →
     connected (transport w) = true →
     ∃ id, CallGet id timeout
           ∈ calls (transport (snd (send_wrapper self message pattern jsep
                                      timeout authorize w)))) ∧
  default_timeout = Some 15%N.
Proof.
  split; [|split; [|split; [|split; [|split]]]].
  - intros Hc Hd Hq. unfold Transport.get. apply wait_nothing; assumption.
  - intros -> H. unfold Transport.get in H.
    apply wait_raises in H as [[=] | [_ [b [=]]]].
  - intros e H. unfold Transport.get in H.
    apply wait_raises in H as [-> | [-> _]]; auto.
  - intros self message pattern jsep authorize w.
    destruct (send_wrapper_calls_only self message pattern jsep timeout
                authorize w) as (l & Hl & HP).
    exists l. split; [exact Hl|]. intros id t Hin.
    rewrite Forall_forall in HP. exact (HP _ Hin id t eq_refl).
  - intros self message m pattern jsep authorize w.
    apply send_wrapper_calls_get.
  - reflexivity.
Qed.

Lemma get_timeout_contract_witness :
  fst (Transport.get "0" (function_matcher [("janus", VStr "success")])
         (Some 15%N) late_transport)
  = Raises Timeout.
Proof.
  apply (proj1 (get_timeout_contract "0"
                  (function_matcher [("janus", VStr "success")]) (Some 15%N)
                  late_transport)).
  - reflexivity.
  - simpl. apply not_elem_of_nil.
  - split; simpl.
    + intros m Hm. vm_compute in Hm. apply elem_of_nil in Hm. contradiction.
    + intros m Hm. apply elem_of_nil in Hm. contradiction.
Defined.

(** ** [send_wrapper]: the transaction and the caller's message *)

(** When [get] raises, [send_wrapper] raises the same without a call of
    [done]: the transaction that [send] opened stays in the registry. *)
Lemma send_wrapper_raises_open (self : JanusAdminMonitorClient) (message : nat)
    (m matcher jsep : dict) (timeout : option N) (authorize : bool)
    (w : world) (e : exn) :
  heap w !! message = Some m → cancel_at w = None →
  connected (transport w) = true →
  fst (send_wrapper self message matcher jsep timeout authorize w) = Raises e →
  ∃ id,
    is_Some (registry (transport (snd (send_wrapper self message matcher jsep
                                         timeout authorize w))) !! id) ∧
    calls (transport (snd (send_wrapper self message matcher jsep timeout
                             authorize w)))
    = (calls (transport w)
       ++ [CallSend (full_message_content self m jsep authorize);
           CallGet id timeout])%list.
Proof.
  intros Hm Hc Hconn.
  rewrite (send_wrapper_run self message m matcher jsep timeout authorize w
             Hm Hc).
  destruct (send_connected (full_message_content self m jsep authorize)
              (transport w) Hconn)
    as (id & st1 & -> & _ & _ & Hopen & _ & _ & _ & Hcalls & _).
  pose proof (get_calls id (function_matcher matcher) timeout st1) as Hg.
  pose proof (get_open id (function_matcher matcher) timeout st1 id) as Ho.
  destruct (Transport.get id (function_matcher matcher) timeout st1)
    as [[r|e'|] st2]; cbn in *; [discriminate| |discriminate].
  intros _. exists id. split; [apply Ho; exact Hopen|].
  rewrite Hg, Hcalls, <- app_assoc. reflexivity.
Qed.

(** When [send_wrapper] returns, the transaction has been retired. *)
Lemma send_wrapper_returns_closed (self : JanusAdminMonitorClient)
    (message : nat) (m matcher jsep : dict) (timeout : option N)
    (authorize : bool) (w : world) (r : dict) :
  heap w !! message = Some m → cancel_at w = None →
  connected (transport w) = true →
  fst (send_wrapper self message matcher jsep timeout authorize w) = Returns r →
  ∃ id,
    registry (transport (snd (send_wrapper self message matcher jsep timeout
                                authorize w))) !! id = None ∧
    calls (transport (snd (send_wrapper self message matcher jsep timeout
                             authorize w)))
    = (calls (transport w)
       ++ [CallSend (full_message_content self m jsep authorize);
           CallGet id timeout; CallDone id])%list.
Proof.
  intros Hm Hc Hconn.
  rewrite (send_wrapper_run self message m matcher jsep timeout authorize w
             Hm Hc).
  destruct (send_connected (full_message_content self m jsep authorize)
              (transport w) Hconn)
    as (id & st1 & -> & _ & _ & _ & _ & _ & _ & Hcalls & _).
  pose proof (get_calls id (function_matcher matcher) timeout st1) as Hg.
  destruct (Transport.get id (function_matcher matcher) timeout st1)
    as [[r'|e'|] st2]; cbn in *; [|discriminate..].
  intros _. exists id. split; [apply lookup_delete_eq|].
  rewrite Hg, Hcalls, <- !app_assoc. reflexivity.
Qed.

(** What [send_wrapper] returns was accepted by its get-time matcher. *)
Lemma send_wrapper_returns_accepted (self : JanusAdminMonitorClient)
    (message : nat) (m matcher jsep : dict) (timeout : option N)
    (authorize : bool) (w : world) (r : dict) :
  heap w !! message = Some m → cancel_at w = None →
  fst (send_wrapper self message matcher jsep timeout authorize w) = Returns r →
  function_matcher matcher r = true.
Proof.
  intros Hm Hc.
  rewrite (send_wrapper_run self message m matcher jsep timeout authorize w
             Hm Hc).
  destruct (sent _ (transport w)) as [[id|e|] st1];
    [|discriminate..].
  pose proof (wait_returns id (function_matcher matcher) timeout (inbound st1)
                (log (CallGet id timeout) st1) r) as Hw.
  unfold Transport.get. cbn [inbound log] in *.
  destruct (wait id (function_matcher matcher) timeout (inbound st1) _)
    as [[r'|e'|] st2]; cbn in *; [|discriminate..].
  intros [= ->]. apply Hw. reflexivity.
Qed.

(** C1, as the code has it: with a peer that stays silent, [get] ends in
    [Timeout] after the 15 seconds, [send_wrapper] raises it without a
    call of [done], and the transaction "0" that [send] opened is still
    in the registry; the same when the task is cancelled while it waits
    in [get]. *)
Theorem send_wrapper_timeout_keeps_transaction :
  fst (send_wrapper example_client 0 default_matcher default_jsep
         default_timeout default_authorize example_world)
  = Raises Timeout ∧
  registry (transport (snd (send_wrapper example_client 0 default_matcher
                              default_jsep default_timeout default_authorize
                              example_world))) !! "0"
  = Some {| buffer := [] |} ∧
  calls (transport (snd (send_wrapper example_client 0 default_matcher
                           default_jsep default_timeout default_authorize
                           example_world)))
  = [CallSend [("janus", VStr "loops_info");
               ("admin_secret", VStr "janusoverlord")];
     CallGet "0" (Some 15%N)] ∧
  fst (send_wrapper example_client 0 default_matcher default_jsep
         default_timeout default_authorize
         (set_cancel_at (Some 1) example_world))
  = Raises CancelledError ∧
  registry (transport (snd (send_wrapper example_client 0 default_matcher
                              default_jsep default_timeout default_authorize
                              (set_cancel_at (Some 1) example_world)))) !! "0"
  = Some {| buffer := [] |}.
Proof. vm_compute. repeat split. Qed.

(** C2, as stated, fails: in a call with the default [jsep] that returns
    the peer's answer, the caller's own dict has got the id of the
    transaction, and the key [admin_secret] too when the call is
    authorized. *)
Lemma send_wrapper_changes_caller_message :
  heap (answering_world example_success) !! 0
  = Some [("janus", VStr "loops_info")] ∧
  fst (send_wrapper example_client 0 [("janus", VStr "success")] default_jsep
         default_timeout default_authorize (answering_world example_success))
  = Returns example_success ∧
  heap (snd (send_wrapper example_client 0 [("janus", VStr "success")]
               default_jsep default_timeout default_authorize
               (answering_world example_success))) !! 0
  = Some [("janus", VStr "loops_info");
          ("admin_secret", VStr "janusoverlord");
          ("transaction", VStr "0")] ∧
  fst (send_wrapper example_client 0 [("janus", VStr "success")] default_jsep
         default_timeout false (answering_world example_success))
  = Returns example_success ∧
  heap (snd (send_wrapper example_client 0 [("janus", VStr "success")]
               default_jsep default_timeout false
               (answering_world example_success))) !! 0
  = Some [("janus", VStr "loops_info"); ("transaction", VStr "0")] ∧
  heap (snd (send_wrapper example_client 0 [("janus", VStr "success")]
               default_jsep default_timeout default_authorize
               (answering_world example_success))) !! 0
  ≠ heap (answering_world example_success) !! 0 ∧
  heap (snd (send_wrapper example_client 0 [("janus", VStr "success")]
               default_jsep default_timeout false
               (answering_world example_success))) !! 0
  ≠ heap (answering_world example_success) !! 0.
Proof. vm_compute. repeat split; discriminate. Qed.

Lemma fresh_not_live (w : world) (l : nat) (d : dict) :
  heap w !! l = Some d → fresh (dom (heap w)) ≠ l.
Proof.
  intros H E. apply (is_fresh (dom (heap w))). rewrite E.
  apply elem_of_dom. eauto.
Qed.

(** With a [jsep], [send_wrapper] writes to the new dict only. *)
Lemma send_wrapper_new_object (self : JanusAdminMonitorClient) (message : nat)
    (matcher jsep : dict) (timeout : option N) (authorize : bool)
    (w : world) (l : nat) :
  dict_truthy jsep = true → l ≠ fresh (dom (heap w)) →
  heap (snd (send_wrapper self message matcher jsep timeout authorize w)) !! l
  = heap w !! l.
Proof.
  intros Hj Hl. unfold send_wrapper. rewrite Hj.
  rewrite bind_bind, bind_load, bind_alloc.
  match goal with
  | |- heap (snd (?c ?w1)) !! _ = _ =>
      let Hp := fresh in
      assert (Hp : touches_only (fresh (dom (heap w))) c)
        by (destruct authorize; eauto 20 with frame);
      rewrite (Hp w1 l Hl)
  end.
  cbn [heap set_heap]. apply lookup_insert_ne. congruence.
Qed.

(** What goes to the transport first is the full message. *)
Lemma send_wrapper_sends (self : JanusAdminMonitorClient) (message : nat)
    (m matcher jsep : dict) (timeout : option N) (authorize : bool)
    (w : world) :
  heap w !! message = Some m → cancel_at w = None →
  ∃ l, calls (transport (snd (send_wrapper self message matcher jsep timeout
                                authorize w)))
       = (calls (transport w)
          ++ CallSend (full_message_content self m jsep authorize) :: l)%list.
Proof.
  intros Hm Hc.
  rewrite (send_wrapper_run self message m matcher jsep timeout authorize w
             Hm Hc).
  pose proof (send_calls (full_message_content self m jsep authorize)
                (transport w)) as Hs.
  destruct (sent _ (transport w)) as [[id|e|] st1]; cbn in Hs;
    [|exists []; cbn; exact Hs..].
  pose proof (get_calls id (function_matcher matcher) timeout st1) as Hg.
  destruct (Transport.get id (function_matcher matcher) timeout st1)
    as [[r|e|] st2]; cbn in *; rewrite Hg, Hs, <- ?app_assoc; cbn;
    eexists; reflexivity.
Qed.

(** C2, amended: [send_wrapper] leaves the caller's message as it was
    whenever [jsep] is not empty, the full message being then a dict of
    its own; what it hands to the transport is the message with [jsep]
    added when there is one and [admin_secret] added when [authorize] is
    true. *)
Theorem send_wrapper_leaves_message (self : JanusAdminMonitorClient)
    (message : nat) (m matcher jsep : dict) (timeout : option N)
    (authorize : bool) (w : world) :
  heap w !! message = Some m →
  (dict_truthy jsep = true →
   heap (snd (send_wrapper self message matcher jsep timeout authorize w))
     !! message = Some m) ∧
  (cancel_at w = None →
   ∃ l, calls (transport (snd (send_wrapper self message matcher jsep timeout
                                 authorize w)))
        = (calls (transport w)
           ++ CallSend (full_message_content self m jsep authorize) :: l)%list).
Proof.
  intros Hm. split.
  - intros Hj. rewrite send_wrapper_new_object; [exact Hm | exact Hj |].
    intros E. exact (fresh_not_live w message m Hm (eq_sym E)).
  - apply send_wrapper_sends. exact Hm.
Qed.

Lemma send_wrapper_leaves_message_witness :
  heap (snd (send_wrapper example_client 0 default_matcher
               [("type", VStr "offer")] default_timeout default_authorize
               example_world)) !! 0
  = Some [("janus", VStr "loops_info")].
Proof.
  apply (proj1 (send_wrapper_leaves_message example_client 0
                  [("janus", VStr "loops_info")] default_matcher
                  [("type", VStr "offer")] default_timeout default_authorize
                  example_world eq_refl)).
  reflexivity.
Defined.

(** ** [ping] *)

(** C8: [ping()] hands the transport exactly [{"janus": "ping"}], without
    the secret, and the message goes out with the id of its transaction
    only; when the peer's message for that transaction is accepted by the
    pattern [{"janus": "pong"}] and arrives within the 15 seconds, after
    events that brought nothing for the transaction, [ping] returns that
    message, from a [get] on the handle that [send] returned, and retires
    the transaction. *)
Theorem ping_returns_pong (self : JanusAdminMonitorClient) (w : world)
    (quiet later : list (N * event)) (dt : N) (pong : dict) :
  connected (transport w) = true → cancel_at w = None →
  inbound (transport w) = (quiet ++ (dt, Deliver pong) :: later)%list →
  Disconnect ∉ map snd quiet →
  (∀ m, Deliver m ∈ map snd quiet →
        transaction_id m = Some (fresh (dom (registry (transport w)))) →
        function_matcher [("janus", VStr "pong")] m = false) →
  (total_delay quiet + dt ≤ 15)%N →
  transaction_id pong = Some (fresh (dom (registry (transport w)))) →
  is_subset pong [("janus", VStr "pong")] = true →
  fst (ping self w) = Returns pong ∧
  calls (transport (snd (ping self w)))
  = (calls (transport w)
     ++ [CallSend [("janus", VStr "ping")];
         CallGet (fresh (dom (registry (transport w)))) (Some 15%N);
         CallDone (fresh (dom (registry (transport w))))])%list ∧
  wire (transport (snd (ping self w)))
  = (wire (transport w)
     ++ [[("janus", VStr "ping");
          ("transaction", VStr (fresh (dom (registry (transport w)))))]])%list ∧
  registry (transport (snd (ping self w)))
    !! fresh (dom (registry (transport w))) = None.
Proof.
  intros Hconn Hc Hin Hd Hquiet Hdelay Hid Hpong.
  unfold ping. rewrite bind_alloc.
  set (w0 := set_heap _ w).
  assert (Hl : heap w0 !! fresh (dom (heap w)) = Some [("janus", VStr "ping")])
    by apply lookup_insert_eq.
  rewrite (send_wrapper_run self (fresh (dom (heap w)))
             [("janus", VStr "ping")] [("janus", VStr "pong")] default_jsep
             default_timeout false w0 Hl Hc).
  change (transport w0) with (transport w).
  change (full_message_content self [("janus", VStr "ping")] default_jsep false)
    with [("janus", VStr "ping")].
  destruct (send_connected [("janus", VStr "ping")] (transport w) Hconn)
    as (id & st1 & -> & -> & Hc1 & Ho1 & Hb1 & _ & Hin1 & Hcalls1 & Hwire1).
  cbn [transaction_id dict_get String.eqb Ascii.eqb Bool.eqb] in *.
  set (h := fresh (dom (registry (transport w)))) in *.
  specialize (Hb1 (fresh_transaction (transport w))).
  pose proof (get_calls h (function_matcher [("janus", VStr "pong")])
                default_timeout st1) as Hg.
  pose proof (get_wire h (function_matcher [("janus", VStr "pong")])
                default_timeout st1) as Hw.
  assert (Hr : fst (Transport.get h (function_matcher [("janus", VStr "pong")])
                      default_timeout st1) = Returns pong).
  { unfold Transport.get. cbn [inbound log]. rewrite Hin1, Hin.
    apply wait_delivered.
    - exact Hc1.
    - exact Ho1.
    - exact Hd.
    - split; [|exact Hquiet]. intros x Hx.
      change (buffer_of h (log (CallGet h default_timeout) st1))
        with (buffer_of h st1) in Hx.
      rewrite Hb1 in Hx. apply elem_of_nil in Hx. contradiction.
    - intros b [= <-]. exact Hdelay.
    - exact Hid.
    - unfold function_matcher. rewrite Hpong. reflexivity. }
  destruct (Transport.get h (function_matcher [("janus", VStr "pong")])
              default_timeout st1) as [[r|e|] st2]; cbn in Hr;
    try discriminate.
  injection Hr as ->. cbn in *.
  split; [reflexivity|]. split; [|split].
  - rewrite Hg, Hcalls1, <- !app_assoc. reflexivity.
  - rewrite Hw, Hwire1. reflexivity.
  - apply lookup_delete_eq.
Qed.

Lemma ping_returns_pong_witness :
  fst (ping example_client (answering_world example_pong))
  = Returns example_pong.
Proof.
  apply (ping_returns_pong example_client (answering_world example_pong)
           [(1%N, Deliver [("janus", VStr "event")])] [] 2%N example_pong).
  - reflexivity.
  - reflexivity.
  - reflexivity.
  - simpl. intros H. apply list_elem_of_singleton in H. discriminate.
  - simpl. intros m Hm. apply list_elem_of_singleton in Hm.
    injection Hm as ->. intros Hid. vm_compute in Hid. discriminate.
  - vm_compute. discriminate.
  - vm_compute. reflexivity.
  - reflexivity.
Defined.

(** * Further properties of the client *)

(** ** What [send_wrapper] sends *)

Lemma transaction_id_set (k : string) (v : value) (d : dict) :
  k ≠ "transaction" →
  transaction_id (dict_set k v d) = transaction_id d.
Proof.
  intros Hk. unfold transaction_id. rewrite dict_get_set_ne; [reflexivity|].
  intros E. apply Hk. symmetry. exact E.
Qed.

Lemma transaction_id_full (self : JanusAdminMonitorClient) (m jsep : dict)
    (authorize : bool) :
  transaction_id (full_message_content self m jsep authorize)
  = transaction_id m.
Proof.
  unfold full_message_content.
  destruct (dict_truthy jsep), authorize;
    rewrite ?transaction_id_set by discriminate; reflexivity.
Qed.

(** The keys of the full message. *)
Lemma full_message_keys (self : JanusAdminMonitorClient) (m jsep : dict)
    (authorize : bool) :
  dict_get "jsep" (full_message_content self m jsep authorize)
  = (if dict_truthy jsep then Some (VDict jsep) else dict_get "jsep" m) ∧
  dict_get "admin_secret" (full_message_content self m jsep authorize)
  = (if authorize then Some (VStr (__admin_secret self))
     else dict_get "admin_secret" m) ∧
  ∀ k, k ≠ "jsep" → k ≠ "admin_secret" →
       dict_get k (full_message_content self m jsep authorize) = dict_get k m.
Proof.
  unfold full_message_content. split; [|split].
  - destruct authorize; rewrite ?dict_get_set_ne by discriminate;
      destruct (dict_truthy jsep); rewrite ?dict_get_set_eq; reflexivity.
  - destruct authorize; rewrite ?dict_get_set_eq; [reflexivity|].
    destruct (dict_truthy jsep); rewrite ?dict_get_set_ne by discriminate;
      reflexivity.
  - intros k Hj Ha.
    destruct authorize; rewrite ?dict_get_set_ne by assumption;
      destruct (dict_truthy jsep); rewrite ?dict_get_set_ne by assumption;
      reflexivity.
Qed.

(** X2: the message that [send_wrapper] hands to the transport carries
    the [jsep] argument under [jsep] when that argument is not empty, and
    the secret of the client under [admin_secret] when [authorize] is
    true, whatever the caller's message had under these keys; every other
    key of the caller's message goes out as it is, and neither key is
    added otherwise. *)
Theorem send_wrapper_sent_keys (self : JanusAdminMonitorClient)
    (message : nat) (m matcher jsep : dict) (timeout : option N)
    (authorize : bool) (w : world) :
  heap w !! message = Some m → cancel_at w = None →
  ∃ (d : dict) (l : list call),
    calls (transport (snd (send_wrapper self message matcher jsep timeout
                             authorize w)))
    = (calls (transport w) ++ CallSend d :: l)%list ∧
    dict_get "jsep" d
    = (if dict_truthy jsep then Some (VDict jsep) else dict_get "jsep" m) ∧
    dict_get "admin_secret" d
    = (if authorize then Some (VStr (__admin_secret self))
       else dict_get "admin_secret" m) ∧
    ∀ k, k ≠ "jsep" → k ≠ "admin_secret" → dict_get k d = dict_get k m.
Proof.
  intros Hm Hc.
  destruct (send_wrapper_sends self message m matcher jsep timeout authorize w
              Hm Hc) as [l Hl].
  exists (full_message_content self m jsep authorize), l.
  split; [exact Hl|]. apply full_message_keys.
Qed.

Lemma send_wrapper_sent_keys_witness :
  ∃ (d : dict) (l : list call),
    calls (transport (snd (send_wrapper example_client 0 default_matcher
                             [("type", VStr "offer")] default_timeout
                             default_authorize example_world)))
    = (calls (transport example_world) ++ CallSend d :: l)%list ∧
    dict_get "jsep" d = Some (VDict [("type", VStr "offer")]) ∧
    dict_get "admin_secret" d = Some (VStr "janusoverlord") ∧
    ∀ k, k ≠ "jsep" → k ≠ "admin_secret" →
         dict_get k d = dict_get k [("janus", VStr "loops_info")].
Proof.
  apply (send_wrapper_sent_keys example_client 0
           [("janus", VStr "loops_info")] default_matcher
           [("type", VStr "offer")] default_timeout default_authorize
           example_world).
  - reflexivity.
  - reflexivity.
Defined.

(** ** The exchange of [send_wrapper] with the peer *)

(** [send] of a message without an id, on a connected transport. *)
Lemma send_fresh (m : dict) (st : state) :
  connected st = true → transaction_id m = None →
  sent m st
  = (Returns (fresh (dom (registry st))),
     set_wire (wire st ++ [dict_set "transaction"
                             (VStr (fresh (dom (registry st)))) m])
       (set_registry (<[fresh (dom (registry st)) := {| buffer := [] |}]>
                        (registry st))
          (log (CallSend m) st))).
Proof.
  intros Hc Hid. unfold sent, Transport.register, Transport.write.
  cbn [connected log registry].
  rewrite Hc, Hid. cbn [negb]. rewrite fresh_transaction. reflexivity.
Qed.

(** The run of [send_wrapper] when the peer answers. *)
Lemma send_wrapper_exchange (self : JanusAdminMonitorClient) (message : nat)
    (m matcher jsep : dict) (timeout : option N) (authorize : bool)
    (w : world) (r : dict) :
  heap w !! message = Some m → transaction_id m = None →
  answers w matcher timeout r →
  fst (send_wrapper self message matcher jsep timeout authorize w) = Returns r ∧
  calls (transport (snd (send_wrapper self message matcher jsep timeout
                           authorize w)))
  = (calls (transport w)
     ++ [CallSend (full_message_content self m jsep authorize);
         CallGet (next_id w) timeout; CallDone (next_id w)])%list ∧
  wire (transport (snd (send_wrapper self message matcher jsep timeout
                          authorize w)))
  = (wire (transport w)
     ++ [dict_set "transaction" (VStr (next_id w))
           (full_message_content self m jsep authorize)])%list ∧
  registry (transport (snd (send_wrapper self message matcher jsep timeout
                              authorize w))) !! next_id w = None.
Proof.
  intros Hm Hid (Hconn & Hc & quiet & later & dt & Hin & Hd & Hquiet & Hb
                 & Hrid & Hr).
  rewrite (send_wrapper_run self message m matcher jsep timeout authorize w
             Hm Hc).
  rewrite (send_fresh _ _ Hconn)
    by (rewrite transaction_id_full; exact Hid).
  fold (next_id w).
  set (full := full_message_content self m jsep authorize).
  set (st1 := set_wire _ _).
  pose proof (get_calls (next_id w) (function_matcher matcher) timeout st1)
    as Hg.
  pose proof (get_wire (next_id w) (function_matcher matcher) timeout st1)
    as Hw.
  assert (Hget : fst (Transport.get (next_id w) (function_matcher matcher)
                        timeout st1) = Returns r).
  { unfold Transport.get. subst st1. cbn [inbound log set_wire set_registry].
    rewrite Hin. apply wait_delivered.
    - exact Hconn.
    - cbn. rewrite lookup_insert_eq. eauto.
    - exact Hd.
    - split; [|exact Hquiet]. intros x Hx.
      unfold buffer_of in Hx. cbn in Hx. unfold next_id in Hx.
      rewrite lookup_insert_eq in Hx. apply elem_of_nil in Hx. contradiction.
    - exact Hb.
    - exact Hrid.
    - exact Hr. }
  destruct (Transport.get (next_id w) (function_matcher matcher) timeout st1)
    as [[r'|e|] st2]; cbn in Hget; try discriminate.
  injection Hget as ->. cbn in *.
  split; [reflexivity|]. split; [|split].
  - rewrite Hg. subst st1. cbn. rewrite <- !app_assoc. reflexivity.
  - rewrite Hw. subst st1. reflexivity.
  - apply lookup_delete_eq.
Qed.

Lemma answering_world_answers (pattern r : dict) :
  transaction_id r = Some "0" → function_matcher pattern r = true →
  answers (answering_world r) pattern default_timeout r.
Proof.
  intros Hid Hr. split; [reflexivity|]. split; [reflexivity|].
  exists [(1%N, Deliver [("janus", VStr "event")])], [], 2%N.
  split; [reflexivity|]. split; [|split; [|split; [|split]]].
  - simpl. intros H. apply list_elem_of_singleton in H. discriminate.
  - simpl. intros x Hx. apply list_elem_of_singleton in Hx.
    injection Hx as ->. intros H. vm_compute in H. discriminate.
  - intros b [= <-]. vm_compute. discriminate.
  - rewrite Hid. vm_compute. reflexivity.
  - exact Hr.
Qed.

(** X4: when the peer answers, [send_wrapper] returns the first message
    of its transaction that is a superset of the caller's pattern or of
    the error pattern: an error reply of the server comes back as the
    result of the call, not as an exception.  The call has then made
    [send], [get] and [done] in this order and the transaction is
    retired. *)
Theorem send_wrapper_returns_answer (self : JanusAdminMonitorClient)
    (message : nat) (m matcher jsep : dict) (timeout : option N)
    (authorize : bool) (w : world) (r : dict) :
  heap w !! message = Some m → transaction_id m = None →
  answers w matcher timeout r →
  (is_subset r matcher = true ∨ is_subset r error_pattern = true) ∧
  fst (send_wrapper self message matcher jsep timeout authorize w) = Returns r ∧
  calls (transport (snd (send_wrapper self message matcher jsep timeout
                           authorize w)))
  = (calls (transport w)
     ++ [CallSend (full_message_content self m jsep authorize);
         CallGet (next_id w) timeout; CallDone (next_id w)])%list ∧
  registry (transport (snd (send_wrapper self message matcher jsep timeout
                              authorize w))) !! next_id w = None.
Proof.
  intros Hm Hid Ha.
  destruct (send_wrapper_exchange self message m matcher jsep timeout authorize
              w r Hm Hid Ha) as (Hr & Hcalls & _ & Hreg).
  split; [|auto].
  destruct Ha as (_ & _ & _ & _ & _ & _ & _ & _ & _ & _ & Hacc).
  unfold function_matcher in Hacc. apply orb_true_iff in Hacc. exact Hacc.
Qed.

Lemma send_wrapper_returns_answer_witness :
  fst (send_wrapper example_client 0 [("janus", VStr "success")] default_jsep
         default_timeout default_authorize (answering_world example_error))
  = Returns example_error.
Proof.
  apply (send_wrapper_returns_answer example_client 0
           [("janus", VStr "loops_info")] [("janus", VStr "success")]
           default_jsep default_timeout default_authorize
           (answering_world example_error) example_error).
  - reflexivity.
  - reflexivity.
  - apply answering_world_answers; reflexivity.
Defined.

(** X1: when [send_wrapper] returns in a task that was not cancelled,
    what it returns was accepted by its get-time matcher, it has called
    [send], [get] and [done] once each in this order, and the open
    transactions are those that were open before the call: a call that
    returns leaves nothing in the registry. *)
Theorem send_wrapper_returns_retired (self : JanusAdminMonitorClient)
    (message : nat) (m matcher jsep : dict) (timeout : option N)
    (authorize : bool) (w : world) (r : dict) :
  heap w !! message = Some m → transaction_id m = None →
  cancel_at w = None →
  fst (send_wrapper self message matcher jsep timeout authorize w) = Returns r →
  function_matcher matcher r = true ∧
  calls (transport (snd (send_wrapper self message matcher jsep timeout
                           authorize w)))
  = (calls (transport w)
     ++ [CallSend (full_message_content self m jsep authorize);
         CallGet (next_id w) timeout; CallDone (next_id w)])%list ∧
  ∀ h, is_Some (registry (transport (snd (send_wrapper self message matcher
                                            jsep timeout authorize w))) !! h)
       ↔ is_Some (registry (transport w) !! h).
Proof.
  intros Hm Hid Hc Hret.
  split; [exact (send_wrapper_returns_accepted self message m matcher jsep
                   timeout authorize w r Hm Hc Hret)|].
  revert Hret.
  rewrite (send_wrapper_run self message m matcher jsep timeout authorize w
             Hm Hc).
  destruct (connected (transport w)) eqn:Hconn.
  - rewrite (send_fresh _ _ Hconn)
      by (rewrite transaction_id_full; exact Hid).
    fold (next_id w). set (st1 := set_wire _ _).
    pose proof (get_calls (next_id w) (function_matcher matcher) timeout st1)
      as Hg.
    pose proof (get_open (next_id w) (function_matcher matcher) timeout st1)
      as Ho.
    destruct (Transport.get (next_id w) (function_matcher matcher) timeout st1)
      as [[r'|e|] st2]; cbn in *; [|discriminate..].
    intros _. split.
    + rewrite Hg. subst st1. cbn. rewrite <- !app_assoc. reflexivity.
    + intros h. rewrite lookup_delete_is_Some, Ho. subst st1. cbn.
      rewrite lookup_insert_is_Some. unfold next_id.
      pose proof (fresh_transaction (transport w)) as Hf.
      split.
      * intros [Hne [E | [_ H]]]; [contradiction | exact H].
      * intros H. assert (fresh (dom (registry (transport w))) ≠ h) as Hne.
        { intros <-. rewrite Hf in H. destruct H as [? [=]]. }
        auto.
  - unfold sent, Transport.register. cbn. rewrite Hconn. cbn. discriminate.
Qed.

Lemma send_wrapper_returns_retired_witness :
  function_matcher [("janus", VStr "success")] example_success = true.
Proof.
  apply (send_wrapper_returns_retired example_client 0
           [("janus", VStr "loops_info")] [("janus", VStr "success")]
           default_jsep default_timeout default_authorize
           (answering_world example_success) example_success).
  - reflexivity.
  - reflexivity.
  - reflexivity.
  - vm_compute. reflexivity.
Defined.

(** ** The dict objects after the call *)

(** The dict objects after a [send_wrapper] that reached the peer. *)
Lemma send_wrapper_heap_sent (self : JanusAdminMonitorClient) (message : nat)
    (m matcher jsep : dict) (timeout : option N) (authorize : bool)
    (w : world) :
  heap w !! message = Some m → transaction_id m = None →
  cancel_at w = None → connected (transport w) = true →
  heap (snd (send_wrapper self message matcher jsep timeout authorize w))
  = sent_heap self message jsep authorize w (next_id w).
Proof.
  intros Hm Hid Hc Hconn.
  rewrite (send_wrapper_run self message m matcher jsep timeout authorize w
             Hm Hc).
  rewrite (send_fresh _ _ Hconn)
    by (rewrite transaction_id_full; exact Hid).
  fold (next_id w).
  destruct (Transport.get (next_id w) (function_matcher matcher) timeout _)
    as [[r|e|] st2]; reflexivity.
Qed.

(** X3: the effect on the dict objects of a [send_wrapper] that reaches
    the peer, for a client without API secret and token and a message
    without an id of its own.  With a [jsep] the full message is one new
    object, which gets the id of the transaction, and no other object
    changes; without one no object is made and the caller's own dict is
    the object that is sent: it gets the secret when the call is
    authorized and the id of the transaction; every other object is as
    before. *)
Theorem send_wrapper_heap_effect (self : JanusAdminMonitorClient)
    (message : nat) (m matcher jsep : dict) (timeout : option N)
    (authorize : bool) (w : world) :
  heap w !! message = Some m → transaction_id m = None →
  cancel_at w = None → connected (transport w) = true →
  api_secret (__transport self) = None → token (__transport self) = None →
  (dict_truthy jsep = true →
   heap (snd (send_wrapper self message matcher jsep timeout authorize w))
   = <[fresh (dom (heap w)) :=
         dict_set "transaction" (VStr (next_id w))
           (full_message_content self m jsep authorize)]> (heap w)) ∧
  (dict_truthy jsep = false →
   dom (heap (snd (send_wrapper self message matcher jsep timeout authorize w)))
   = dom (heap w) ∧
   heap (snd (send_wrapper self message matcher jsep timeout authorize w))
     !! message
   = Some (dict_set "transaction" (VStr (next_id w))
             (if authorize
              then dict_set "admin_secret" (VStr (__admin_secret self)) m
              else m)) ∧
   ∀ l, l ≠ message →
        heap (snd (send_wrapper self message matcher jsep timeout authorize w))
          !! l = heap w !! l).
Proof.
  intros Hm Hid Hc Hconn _ _.
  rewrite (send_wrapper_heap_sent self message m) by assumption.
  unfold sent_heap, prepared_heap, full_message_ref, full_message_content.
  split; intros ->.
  - destruct authorize; rewrite ?alter_insert_eq, Hm; reflexivity.
  - split; [|split].
    + destruct authorize; rewrite ?dom_alter_L; reflexivity.
    + destruct authorize; rewrite ?lookup_alter_eq, Hm; reflexivity.
    + intros l Hl. destruct authorize;
        rewrite ?lookup_alter_ne by congruence; reflexivity.
Qed.

Lemma send_wrapper_heap_effect_witness :
  heap (snd (send_wrapper example_client 0 [("janus", VStr "success")]
               default_jsep default_timeout default_authorize
               (answering_world example_success))) !! 0
  = Some [("janus", VStr "loops_info");
          ("admin_secret", VStr "janusoverlord");
          ("transaction", VStr "0")].
Proof.
  apply (proj2 (send_wrapper_heap_effect example_client 0
                  [("janus", VStr "loops_info")] [("janus", VStr "success")]
                  default_jsep default_timeout default_authorize
                  (answering_world example_success)
                  eq_refl eq_refl eq_refl eq_refl eq_refl eq_refl)).
  reflexivity.
Defined.

(** ** The requests and their replies *)

(** A request that reads one key of the reply, when the peer answers. *)
Lemma keyed_request_answered (self : JanusAdminMonitorClient) (d pattern : dict)
    (key : string) (w : world) (r : dict) (c : M value) :
  c = bind (alloc d)
        (fun message =>
           bind (send_wrapper self message pattern default_jsep default_timeout
                   default_authorize)
             (fun response => getitem (VDict response) key)) →
  transaction_id d = None →
  answers w pattern default_timeout r →
  fst (c w) = match dict_get key r with
              | Some v => Returns v
              | None => Raises (KeyError key)
              end ∧
  calls (transport (snd (c w)))
  = (calls (transport w)
     ++ [CallSend (with_secret self d); CallGet (next_id w) default_timeout;
         CallDone (next_id w)])%list ∧
  registry (transport (snd (c w))) !! next_id w = None.
Proof.
  intros -> Hid Ha. rewrite bind_alloc.
  set (l := fresh (dom (heap w))). set (w0 := set_heap _ w).
  assert (Hl : heap w0 !! l = Some d) by apply lookup_insert_eq.
  destruct (send_wrapper_exchange self l d pattern default_jsep default_timeout
              default_authorize w0 r Hl Hid Ha) as (Hr & Hcalls & _ & Hreg).
  unfold bind.
  destruct (send_wrapper self l pattern default_jsep default_timeout
              default_authorize w0) as [[r'|e|] w'];
    cbn in Hr; try discriminate.
  injection Hr as ->. cbn in Hcalls, Hreg. unfold getitem.
  destruct (dict_get key r); cbn; auto.
Qed.

(** A request that returns the reply as it is, without the secret. *)
Lemma plain_request_answered (self : JanusAdminMonitorClient) (d pattern : dict)
    (w : world) (r : dict) :
  transaction_id d = None →
  answers w pattern default_timeout r →
  fst (bind (alloc d)
         (fun message =>
            send_wrapper self message pattern default_jsep default_timeout
              false) w) = Returns r ∧
  calls (transport (snd (bind (alloc d)
     (fun message =>
        send_wrapper self message pattern default_jsep default_timeout false)
     w)))
  = (calls (transport w)
     ++ [CallSend d; CallGet (next_id w) default_timeout;
         CallDone (next_id w)])%list ∧
  wire (transport (snd (bind (alloc d)
     (fun message =>
        send_wrapper self message pattern default_jsep default_timeout false)
     w)))
  = (wire (transport w) ++ [dict_set "transaction" (VStr (next_id w)) d])%list.
Proof.
  intros Hid Ha. rewrite bind_alloc.
  set (l := fresh (dom (heap w))). set (w0 := set_heap _ w).
  assert (Hl : heap w0 !! l = Some d) by apply lookup_insert_eq.
  destruct (send_wrapper_exchange self l d pattern default_jsep default_timeout
              false w0 r Hl Hid Ha) as (Hr & Hcalls & Hwire & _).
  auto.
Qed.

(** A reply that a success pattern with a key accepts has the key. *)
Lemma success_pattern_key (r : dict) (key : string) (pv : value) :
  is_subset r [("janus", VStr "success"); (key, pv)] = true →
  ∃ v, dict_get key r = Some v ∧ value_matches pv v = true.
Proof.
  rewrite !is_subset_cons, !andb_true_iff. intros (_ & Hk & _).
  unfold key_matches in Hk. cbn [fst snd] in Hk.
  destruct (dict_get key r) as [v|]; [|discriminate]. eauto.
Qed.

(** A reply without the key that the matcher accepted is an error. *)
Lemma accepted_without_key (r : dict) (key : string) (pv : value) :
  function_matcher [("janus", VStr "success"); (key, pv)] r = true →
  dict_get key r = None →
  is_subset r error_pattern = true.
Proof.
  unfold function_matcher. intros H Hk.
  apply orb_true_iff in H as [H | H]; [|exact H].
  apply success_pattern_key in H as (v & Hv & _). congruence.
Qed.

Lemma answers_accepted (w : world) (pattern : dict) (timeout : option N)
    (r : dict) :
  answers w pattern timeout r → function_matcher pattern r = true.
Proof. intros (_ & _ & _ & _ & _ & _ & _ & _ & _ & _ & H). exact H. Qed.

(** X6: [loops_info()] sends [{"janus": "loops_info"}] with the secret
    and, when the peer answers, returns what the reply has under [loops];
    a reply without that key, an error or a bare success (the pattern
    does not ask for the key), ends the call in [KeyError("loops")].
    Either way the transaction has been retired. *)
Theorem loops_info_reply (self : JanusAdminMonitorClient) (w : world)
    (r : dict) :
  answers w [("janus", VStr "success")] default_timeout r →
  fst (loops_info self w) = match dict_get "loops" r with
                            | Some v => Returns v
                            | None => Raises (KeyError "loops")
                            end ∧
  calls (transport (snd (loops_info self w)))
  = (calls (transport w)
     ++ [CallSend [("janus", VStr "loops_info");
                   ("admin_secret", VStr (__admin_secret self))];
         CallGet (next_id w) (Some 15%N); CallDone (next_id w)])%list ∧
  registry (transport (snd (loops_info self w))) !! next_id w = None.
Proof.
  intros Ha.
  exact (keyed_request_answered self [("janus", VStr "loops_info")]
           [("janus", VStr "success")] "loops" w r (loops_info self)
           eq_refl eq_refl Ha).
Qed.

Lemma loops_info_reply_witness :
  fst (loops_info example_client (answering_world example_bare_success))
  = Raises (KeyError "loops").
Proof.
  apply (loops_info_reply example_client
           (answering_world example_bare_success) example_bare_success).
  apply answering_world_answers; reflexivity.
Defined.

(** X7: [get_settings()] sends [{"janus": "get_status"}] with the secret.
    A success reply is accepted only with a document under [status], and
    that document is what the call returns; a reply without [status] was
    accepted as an error, and the call ends in [KeyError("status")]. *)
Theorem get_settings_reply (self : JanusAdminMonitorClient) (w : world)
    (r : dict) :
  answers w [("janus", VStr "success"); ("status", VDict [])]
    default_timeout r →
  (is_subset r [("janus", VStr "success"); ("status", VDict [])] = true →
   ∃ status, dict_get "status" r = Some (VDict status) ∧
             fst (get_settings self w) = Returns (VDict status)) ∧
  (dict_get "status" r = None →
   is_subset r error_pattern = true ∧
   fst (get_settings self w) = Raises (KeyError "status")) ∧
  calls (transport (snd (get_settings self w)))
  = (calls (transport w)
     ++ [CallSend [("janus", VStr "get_status");
                   ("admin_secret", VStr (__admin_secret self))];
         CallGet (next_id w) (Some 15%N); CallDone (next_id w)])%list ∧
  registry (transport (snd (get_settings self w))) !! next_id w = None.
Proof.
  intros Ha.
  destruct (keyed_request_answered self [("janus", VStr "get_status")]
              [("janus", VStr "success"); ("status", VDict [])] "status" w r
              (get_settings self) eq_refl eq_refl Ha) as (Hr & Hcalls & Hreg).
  split; [|split; [|split; assumption]].
  - intros Hs. apply success_pattern_key in Hs as (v & Hv & Hm).
    apply value_matches_VDict in Hm as (status & -> & _).
    exists status. rewrite Hr, Hv. auto.
  - intros Hk. split.
    + exact (accepted_without_key r "status" (VDict [])
               (answers_accepted _ _ _ _ Ha) Hk).
    + rewrite Hr, Hk. reflexivity.
Qed.

Lemma get_settings_reply_witness :
  ∃ status, dict_get "status" example_status = Some (VDict status) ∧
            fst (get_settings example_client (answering_world example_status))
            = Returns (VDict status).
Proof.
  apply (get_settings_reply example_client
           (answering_world example_status) example_status).
  - apply answering_world_answers; reflexivity.
  - reflexivity.
Defined.

Lemma setter_answered (s : setter) (self : JanusAdminMonitorClient) (z : Z)
    (b : bool) (w : world) (r : dict) :
  answers w (setter_pattern s) default_timeout r →
  fst (call_setter s self z b w)
  = match dict_get (setter_reply_key s) r with
    | Some v => Returns v
    | None => Raises (KeyError (setter_reply_key s))
    end ∧
  calls (transport (snd (call_setter s self z b w)))
  = (calls (transport w)
     ++ [CallSend (with_secret self (setter_request s z b));
         CallGet (next_id w) default_timeout; CallDone (next_id w)])%list ∧
  registry (transport (snd (call_setter s self z b w))) !! next_id w = None.
Proof.
  intros Ha.
  destruct s;
    (eapply keyed_request_answered; [reflexivity | reflexivity | exact Ha]).
Qed.

(** X8: each of the nine setters sends its request with the secret of
    the client and, on a success reply, returns the value that the reply
    has under the setter's reply key: the value the server reports, which
    a success reply always carries since the pattern asks for the key.
    The transaction is retired. *)
Theorem setter_returns_reported_value (s : setter)
    (self : JanusAdminMonitorClient) (z : Z) (b : bool) (w : world)
    (r : dict) :
  answers w (setter_pattern s) default_timeout r →
  is_subset r (setter_pattern s) = true →
  ∃ v, dict_get (setter_reply_key s) r = Some v ∧
       fst (call_setter s self z b w) = Returns v ∧
       calls (transport (snd (call_setter s self z b w)))
       = (calls (transport w)
          ++ [CallSend (with_secret self (setter_request s z b));
              CallGet (next_id w) (Some 15%N); CallDone (next_id w)])%list ∧
       registry (transport (snd (call_setter s self z b w))) !! next_id w
       = None.
Proof.
  intros Ha Hs.
  destruct (setter_answered s self z b w r Ha) as (Hr & Hcalls & Hreg).
  apply success_pattern_key in Hs as (v & Hv & _).
  exists v. rewrite Hr, Hv. auto.
Qed.

Lemma setter_returns_reported_value_witness :
  ∃ v, dict_get "timeout" example_timeout_reply = Some v ∧
       fst (set_session_timeout example_client 60
              (answering_world example_timeout_reply)) = Returns v ∧
       calls (transport (snd (set_session_timeout example_client 60
                                (answering_world example_timeout_reply))))
       = (calls (transport (answering_world example_timeout_reply))
          ++ [CallSend (with_secret example_client
                          (setter_request SessionTimeout 60 false));
              CallGet (next_id (answering_world example_timeout_reply))
                (Some 15%N);
              CallDone (next_id (answering_world example_timeout_reply))])%list ∧
       registry (transport (snd (set_session_timeout example_client 60
                                   (answering_world example_timeout_reply))))
         !! next_id (answering_world example_timeout_reply) = None.
Proof.
  apply (setter_returns_reported_value SessionTimeout example_client 60 false
           (answering_world example_timeout_reply) example_timeout_reply).
  - apply answering_world_answers; reflexivity.
  - reflexivity.
Defined.

(** X9: when the reply that a setter gets has no value under the
    setter's reply key, the reply is an error document of the server, and
    the setter ends in [KeyError] for that key; [done] has been called by
    then and the transaction is retired. *)
Theorem setter_error_reply (s : setter) (self : JanusAdminMonitorClient)
    (z : Z) (b : bool) (w : world) (r : dict) :
  answers w (setter_pattern s) default_timeout r →
  dict_get (setter_reply_key s) r = None →
  is_subset r error_pattern = true ∧
  fst (call_setter s self z b w) = Raises (KeyError (setter_reply_key s)) ∧
  calls (transport (snd (call_setter s self z b w)))
  = (calls (transport w)
     ++ [CallSend (with_secret self (setter_request s z b));
         CallGet (next_id w) (Some 15%N); CallDone (next_id w)])%list ∧
  registry (transport (snd (call_setter s self z b w))) !! next_id w = None.
Proof.
  intros Ha Hk.
  destruct (setter_answered s self z b w r Ha) as (Hr & Hcalls & Hreg).
  split; [|rewrite Hr, Hk; auto].
  exact (accepted_without_key r (setter_reply_key s) VNone
           (answers_accepted _ _ _ _ Ha) Hk).
Qed.

Lemma setter_error_reply_witness :
  fst (set_log_level example_client 7 (answering_world example_error))
  = Raises (KeyError "level").
Proof.
  apply (setter_error_reply LogLevel example_client 7 false
           (answering_world example_error) example_error).
  - apply answering_world_answers; reflexivity.
  - reflexivity.
Defined.

(** X10: on a transport that is not the HTTP one, [info()] hands the
    transport exactly [{"janus": "info"}], without the secret, the
    message goes out with the id of its transaction only, and the call
    returns the reply of the peer as it is. *)
Theorem info_reply (is_http : JanusTransport → bool)
    (transport_info : JanusTransport → M dict)
    (self : JanusAdminMonitorClient) (w : world) (r : dict) :
  is_http (__transport self) = false →
  answers w [("janus", VStr "server_info")] default_timeout r →
  fst (info is_http transport_info self w) = Returns r ∧
  calls (transport (snd (info is_http transport_info self w)))
  = (calls (transport w)
     ++ [CallSend [("janus", VStr "info")]; CallGet (next_id w) (Some 15%N);
         CallDone (next_id w)])%list ∧
  wire (transport (snd (info is_http transport_info self w)))
  = (wire (transport w)
     ++ [[("janus", VStr "info"); ("transaction", VStr (next_id w))]])%list.
Proof.
  intros Hh Ha. unfold info. rewrite Hh.
  exact (plain_request_answered self [("janus", VStr "info")]
           [("janus", VStr "server_info")] w r eq_refl Ha).
Qed.

Lemma info_reply_witness :
  fst (info (fun _ => false) (fun _ => raise TypeError) example_client
         (answering_world example_server_info))
  = Returns example_server_info.
Proof.
  apply (info_reply (fun _ => false) (fun _ => raise TypeError) example_client
           (answering_world example_server_info) example_server_info).
  - reflexivity.
  - apply answering_world_answers; reflexivity.
Defined.

(** ** The token requests, again *)

(** X11: no token request reaches the transport: the state of the
    transport, its log of calls included, is after the call what it was
    before; all a call leaves behind is its payload dict. *)
Theorem token_requests_send_nothing
    (send : JanusAdminMonitorClient → nat → M dict)
    (defaults : add_token_defaults) (self : JanusAdminMonitorClient)
    (omitted_or_token : option string) (omitted_or_plugins : option (list value))
    (token : string) (plugins : list value) (w : world) :
  transport (snd (add_token send defaults self omitted_or_token
                    omitted_or_plugins w)) = transport w ∧
  transport (snd (allow_token send self token plugins w)) = transport w ∧
  transport (snd (disallow_token send self token plugins w)) = transport w ∧
  transport (snd (list_tokens send self w)) = transport w ∧
  transport (snd (remove_token send self token w)) = transport w.
Proof.
  repeat split;
    unfold add_token, allow_token, disallow_token, list_tokens, remove_token;
    repeat (rewrite bind_bind || rewrite bind_alloc || rewrite bind_setitem
            || rewrite bind_ret);
    try (destruct (list_truthy _);
         repeat (rewrite bind_bind || rewrite bind_alloc || rewrite bind_setitem
                 || rewrite bind_ret));
    try (unfold bind); rewrite self_send_raises; reflexivity.
Qed.

(** X12: the payload of [add_token]: the token that was passed is used
    as it is, and the key [plugins] is there exactly when the list of
    plugins is not empty; with no plugins, or an empty list, the payload
    has no such key. *)
Theorem add_token_payload_plugins
    (send : JanusAdminMonitorClient → nat → M dict)
    (defaults : add_token_defaults) (self : JanusAdminMonitorClient)
    (token : string) (plugins : option (list value)) (w : world) :
  first_allocated w (snd (add_token send defaults self (Some token) plugins w))
  = Some ([("janus", VStr "add_token"); ("token", VStr token)]
          ++ match default (default_plugins defaults) plugins with
             | [] => []
             | p :: ps => [("plugins", VList (p :: ps))]
             end)%list.
Proof.
  unfold first_allocated, add_token.
  destruct (default (default_plugins defaults) plugins) as [|p ps];
    cbn [list_truthy];
    repeat (rewrite bind_bind || rewrite bind_alloc || rewrite bind_setitem
            || rewrite bind_ret);
    rewrite self_send_raises; cbn [snd heap set_heap default].
  - rewrite lookup_insert_eq. reflexivity.
  - rewrite lookup_alter_eq, lookup_insert_eq. reflexivity.
Qed.
